(** * batch_run.py: a parameter sweep over an external benchmark

    A shallow embedding of [src/batch_run.py] and the properties of its
    grid generation, of [run_benchmark] and of the ordered collection loop
    of [main].

    Conventions of the embedding.
    - A Python [str] is a [string]; a character stands for the code point
      of the same number, so the texts covered are those of code points
      below 256.
    - A Python [int] is a [Z].
    - [print] appends one entry to a console, a [list string] (the newline
      that [print] adds is left implicit); it is taken to succeed: the
      standard output of the harness is open and can encode the text.
    - A call that can raise returns a [completion]: a value or the
      exception raised.
    - The results file is the list of rows handed to [csv.writer]; the
      quoting the csv module applies when it turns a row into text is not
      modelled, and the output path is taken to be one that can be
      created and written.
    - The pool is a transition system: a worker starts the task at the
      head of the queue, a running task finishes, or the main thread
      handles the future it waits for.  A schedule is a list of such
      actions; what is proved for every schedule holds whichever
      invocation completes first.  A finished task hands its printed
      entries to the console whole; with more than one worker the real
      standard output is shared without a lock, so nothing is stated
      about the console of a pool of several workers. *)

From Stdlib Require Import ZArith Ascii String DecimalString Lia.
From Stdlib Require DecimalPos DecimalZ.
From stdpp Require Import base list strings.

Open Scope string_scope.
Open Scope list_scope.
Open Scope Z_scope.

(** ** Python strings *)

Module Py.

(** [str.isspace] on one character: the white space among the code points
    below 256 (TAB..CR, FS..US, SPACE, NEL, NBSP). *)
Definition isspace (c : ascii) : bool :=
  let n := nat_of_ascii c in
  ((9 <=? n) && (n <=? 13) || (28 <=? n) && (n <=? 32) ||
   (n =? 133) || (n =? 160))%nat.

(** [s.lstrip()] *)
Fixpoint lstrip (s : string) : string :=
  match s with
  | EmptyString => EmptyString
  | String c s' => if isspace c then lstrip s' else s
  end.

(** [s.rstrip()] *)
Fixpoint rstrip (s : string) : string :=
  match s with
  | EmptyString => EmptyString
  | String c s' =>
      match rstrip s' with
      | EmptyString => if isspace c then EmptyString else String c EmptyString
      | t => String c t
      end
  end.

(** [s.strip()]: white space is removed at both ends. *)
Definition strip (s : string) : string := rstrip (lstrip s).

(** [s.split(sep)] for a separator of one character: never empty, one more
    field than there are separators. *)
Fixpoint split (sep : ascii) (s : string) : list string :=
  match s with
  | EmptyString => [EmptyString]
  | String c s' =>
      if Ascii.eqb c sep then EmptyString :: split sep s'
      else match split sep s' with
           | f :: fs => String c f :: fs
           | [] => [String c EmptyString]
           end
  end.

(** [sep.join(l)] *)
Definition join (sep : string) (l : list string) : string :=
  String.concat sep l.

(** [str(n)] for an [int]. *)
Definition str_int (n : Z) : string := NilZero.string_of_int (Z.to_int n).

(** [bool(s)] for a [str]. *)
Definition truthy (s : string) : bool :=
  match s with EmptyString => false | String _ _ => true end.

(** [bool(r)] for a value that is a [str] or [None]. *)
Definition truthy_opt (r : option string) : bool :=
  match r with None => false | Some s => truthy s end.

(** [range(lo, hi)] *)
Definition range (lo hi : Z) : list Z := seqZ lo (hi - lo).

(** Every character is white space. *)
Fixpoint all_space (s : string) : bool :=
  match s with
  | EmptyString => true
  | String c s' => isspace c && all_space s'
  end.

(** The first character is white space. *)
Definition starts_with_space (s : string) : bool :=
  match s with
  | EmptyString => false
  | String c _ => isspace c
  end.

(** The last character is white space. *)
Fixpoint ends_with_space (s : string) : bool :=
  match s with
  | EmptyString => false
  | String c EmptyString => isspace c
  | String _ s' => ends_with_space s'
  end.

(** [s.startswith(pre)] *)
Fixpoint startswith (s pre : string) {struct pre} : bool :=
  match pre with
  | EmptyString => true
  | String a pre' =>
      match s with
      | EmptyString => false
      | String b s' => Ascii.eqb a b && startswith s' pre'
      end
  end.

(** [s.count(c)] for one character. *)
Fixpoint count_char (c : ascii) (s : string) : nat :=
  match s with
  | EmptyString => 0%nat
  | String d s' => ((if Ascii.eqb d c then 1 else 0) + count_char c s')%nat
  end.

(** The line feed. *)
Definition newline : string := String (ascii_of_nat 10) EmptyString.

(** *** [repr] of a [str] and of a list of [str] *)

Definition hex_digit (n : nat) : ascii :=
  ascii_of_nat (if (n <? 10)%nat then 48 + n else 87 + n).

Definition contains (c : ascii) (s : string) : bool :=
  existsb (Ascii.eqb c) (list_ascii_of_string s).

Definition squote : ascii := ascii_of_nat 39.
Definition dquote : ascii := ascii_of_nat 34.
Definition backslash : ascii := ascii_of_nat 92.

(** The quote [repr] chooses: a double quote only when the text holds a
    single quote and no double quote. *)
Definition repr_quote (s : string) : ascii :=
  if contains squote s && negb (contains dquote s) then dquote else squote.

Definition printable (n : nat) : bool :=
  ((32 <=? n) && (n <? 127) || (161 <=? n) && negb (n =? 173))%nat.

Definition repr_char (q c : ascii) : string :=
  let n := nat_of_ascii c in
  if Ascii.eqb c backslash then String backslash (String backslash EmptyString)
  else if Ascii.eqb c q then String backslash (String c EmptyString)
  else if (n =? 9)%nat then String backslash "t"
  else if (n =? 10)%nat then String backslash "n"
  else if (n =? 13)%nat then String backslash "r"
  else if printable n then String c EmptyString
  else String backslash
         (String "x" (String (hex_digit (n / 16)) (String (hex_digit (n mod 16)) EmptyString))).

Fixpoint repr_body (q : ascii) (s : string) : string :=
  match s with
  | EmptyString => EmptyString
  | String c s' => repr_char q c +:+ repr_body q s'
  end.

Definition repr_str (s : string) : string :=
  let q := repr_quote s in
  String q (repr_body q s +:+ String q EmptyString).

Definition repr_list (l : list string) : string :=
  "[" +:+ join ", " (map repr_str l) +:+ "]".

End Py.

(** ** Exceptions *)

(** The classes, other than the two of [subprocess] below, that matter to
    the handlers of [run_benchmark]. *)
Inductive exc_class :=
| OSError | FileNotFoundError | PermissionError
| ValueError | UnicodeDecodeError | MemoryError
| KeyboardInterrupt | SystemExit | GeneratorExit.

(** [issubclass(c, Exception)]: the last three derive from [BaseException]
    only. *)
Definition derives_Exception (c : exc_class) : bool :=
  match c with
  | KeyboardInterrupt | SystemExit | GeneratorExit => false
  | _ => true
  end.

Inductive exception :=
| CalledProcessError (returncode : Z) (cmd : list string) (output stderr : string)
| TimeoutExpired (cmd : list string) (timeout : Z)
| OtherException (cls : exc_class) (msg : string).

(** [isinstance(e, subprocess.CalledProcessError)] *)
Definition is_CalledProcessError (e : exception) : bool :=
  match e with CalledProcessError _ _ _ _ => true | _ => false end.

(** [isinstance(e, Exception)] *)
Definition is_Exception (e : exception) : bool :=
  match e with
  | OtherException c _ => derives_Exception c
  | _ => true
  end.

(** [e.stderr], read by the first handler only. *)
Definition exc_stderr (e : exception) : string :=
  match e with
  | CalledProcessError _ _ _ err => err
  | _ => EmptyString
  end.

(** [str(e)].  For a [CalledProcessError] with a negative return code
    Python names the signal instead; [run_benchmark] never takes [str] of
    that class. *)
Definition exc_str (e : exception) : string :=
  match e with
  | CalledProcessError rc cmd _ _ =>
      "Command '" +:+ Py.repr_list cmd +:+ "' returned non-zero exit status "
        +:+ Py.str_int rc +:+ "."
  | TimeoutExpired cmd t =>
      "Command '" +:+ Py.repr_list cmd +:+ "' timed out after "
        +:+ Py.str_int t +:+ " seconds"
  | OtherException _ msg => msg
  end.

(** The result of a call: it returns a value or raises. *)
Inductive completion (A : Type) :=
| Returned (v : A)
| Raised (e : exception).
Arguments Returned {A} v.
Arguments Raised {A} e.

(** ** The child process and [subprocess.run] *)

(** What one invocation of the executable does: it is launched, would run
    for [duration] seconds and exit with [returncode] after writing [stdout]
    and [stderr]; or [subprocess.run] raises for another reason (the
    executable is missing, the output does not decode, ...). *)
Inductive process_behaviour :=
| Exits (duration : Z) (returncode : Z) (stdout stderr : string)
| Fails (cls : exc_class) (msg : string).

Record CompletedProcess := {
  cp_args : list string;
  cp_returncode : Z;
  cp_stdout : string;
  cp_stderr : string
}.

(** [subprocess.run(cmd, check=True, capture_output=True, text=True,
    timeout=timeout)]: a child still running when the timeout expires is
    killed and [TimeoutExpired] is raised; otherwise a non-zero return code
    raises [CalledProcessError]. *)
Definition subprocess_run (cmd : list string) (timeout : Z)
    (p : process_behaviour) : completion CompletedProcess :=
  match p with
  | Fails cls msg => Raised (OtherException cls msg)
  | Exits duration rc out err =>
      if timeout <? duration then Raised (TimeoutExpired cmd timeout)
      else if negb (rc =? 0) then Raised (CalledProcessError rc cmd out err)
      else Returned {| cp_args := cmd; cp_returncode := rc;
                       cp_stdout := out; cp_stderr := err |}
  end.

(** ** [run_benchmark] *)

(** The command line: the executable, then [lambda_val], then [tau]. *)
Definition cmd_of (lambda_val tau : Z) (benchmark_bin : string) : list string :=
  [benchmark_bin; Py.str_int lambda_val; Py.str_int tau].

(** [run_benchmark] from line 17 on, for a command line that lines 11-15
    could build ([call_run_benchmark] below is the whole call): the [try]
    statement returns the lines it printed and how it completed. *)
Definition run_benchmark (lambda_val tau : Z) (benchmark_bin : string)
    (p : process_behaviour) : list string * completion (option string) :=
  let cmd := cmd_of lambda_val tau benchmark_bin in
  match subprocess_run cmd 3000 p with
  | Returned result => ([], Returned (Some (cp_stdout result)))
  | Raised e =>
      if is_CalledProcessError e then
        (["Error running " +:+ Py.join " " cmd +:+ ":" +:+ Py.newline +:+ exc_stderr e],
         Returned None)
      else if is_Exception e then
        (["Unexpected error with " +:+ Py.join " " cmd +:+ ": " +:+ exc_str e],
         Returned None)
      else ([], Raised e)
  end.

(** ** Lines 11-15: the command line is built before the [try] *)

(** The default of [sys.get_int_max_str_digits()]. *)
Definition int_max_str_digits : Z := 4300.

(** [str(n)] succeeds: [n] has at most 4300 digits, that is, its absolute
    value is below [10 ^ 4300].  The first test is a shortcut for the
    numbers below [2 ^ 13975], all of which are below [10 ^ 4300]
    ([str_fits_spec]). *)
Definition str_fits (n : Z) : bool :=
  if Z.log2 (Z.abs n) <? 13975 then true
  else Z.abs n <? 10 ^ int_max_str_digits.

Definition int_str_limit_error : exception :=
  OtherException ValueError
    "Exceeds the limit (4300 digits) for integer string conversion; use sys.set_int_max_str_digits() to increase the limit".

(** [str(n)] for an [int]: it raises [ValueError] beyond the limit. *)
Definition str (n : Z) : completion string :=
  if str_fits n then Returned (Py.str_int n) else Raised int_str_limit_error.

(** Lines 11-15. *)
Definition build_cmd (lambda_val tau : Z) (benchmark_bin : string)
    : completion (list string) :=
  match str lambda_val with
  | Raised e => Raised e
  | Returned l =>
      match str tau with
      | Raised e => Raised e
      | Returned t => Returned [benchmark_bin; l; t]
      end
  end.

(** A call of [run_benchmark], lines 9-31: what is raised while the
    command line is built is raised outside the [try] and leaves the
    function. *)
Definition call_run_benchmark (lambda_val tau : Z) (benchmark_bin : string)
    (p : process_behaviour) : list string * completion (option string) :=
  match build_cmd lambda_val tau benchmark_bin with
  | Raised e => ([], Raised e)
  | Returned _ => run_benchmark lambda_val tau benchmark_bin p
  end.

(** ** The grid of parameters *)

(** Lines 64-67: the two nested loops appending to [param_combinations]. *)
Definition param_combinations (lambdas taus : list Z) : list (Z * Z) :=
  fold_left
    (fun acc csp => fold_left (fun acc tau => acc ++ [(csp, tau)]) taus acc)
    lambdas [].

(** ** The results file *)

Definition row := list string.

(** A file object: what is on disk, and what [csv.writer] has written to
    it since the last flush. *)
Record csv_file := { disk : list row; buffer : list row }.

(** [open('w')]: the file is created or truncated. *)
Definition open_w : csv_file := {| disk := []; buffer := [] |}.

(** [writer.writerow(r)] *)
Definition writerow (r : row) (f : csv_file) : csv_file :=
  {| disk := disk f; buffer := buffer f ++ [r] |}.

(** [f.flush()] *)
Definition flush (f : csv_file) : csv_file :=
  {| disk := disk f ++ buffer f; buffer := [] |}.

(** Leaving the [with] block closes the file, which flushes it;
    [open('a')] then appends to what is on disk. *)
Definition close_and_reopen_a (f : csv_file) : csv_file := flush f.

Definition header : row :=
  ["lambda"; "tau"; "t_open_1_8"; "t_open_1_4"; "t_open_1_2"].

(** Lines 56-61: the header is written before anything is submitted. *)
Definition header_written : csv_file :=
  close_and_reopen_a (writerow header open_w).

(** [result.strip().split(',')] *)
Definition row_of (result : string) : row := Py.split "," (Py.strip result).

(** Lines 88-90, the body of the collection loop once [future.result()]
    has returned [result]. *)
Definition collect_one (result : option string) (f : csv_file) : csv_file :=
  if Py.truthy_opt result then
    match result with
    | Some text => flush (writerow (row_of text) f)
    | None => f
    end
  else f.

(** The parsing as the specification words it, to compare [row_of] with:
    only one trailing line feed is removed before the text is split. *)
Fixpoint strip_trailing_newline (s : string) : string :=
  match s with
  | EmptyString => EmptyString
  | String c EmptyString =>
      if Ascii.eqb c (ascii_of_nat 10) then EmptyString else s
  | String c s' => String c (strip_trailing_newline s')
  end.

Definition spec_row_of (result : string) : row :=
  Py.split "," (strip_trailing_newline result).

(** The data rows of a file: all rows but the header. *)
Definition data_rows (f : csv_file) : list row := drop 1 (disk f).

(** The rows that a list of results, handled in order, adds to the file. *)
Definition rows_of (rs : list (completion (option string))) : list row :=
  flat_map (fun r => match r with
                     | Returned (Some text) =>
                         if Py.truthy text then [row_of text] else []
                     | _ => []
                     end) rs.

(** A result that makes the loop write a row: a text that is not empty. *)
Definition writes_row (r : completion (option string)) : bool :=
  match r with
  | Returned result => Py.truthy_opt result
  | Raised _ => false
  end.

(** A result that is a text, empty or not: the call returned the standard
    output of a child that exited with status 0 in time. *)
Definition is_success (r : completion (option string)) : bool :=
  match r with
  | Returned (Some _) => true
  | _ => false
  end.

(** The exception, if any, that [subprocess.run] raises for this behaviour
    derives from [Exception]. *)
Definition exception_derived (p : process_behaviour) : bool :=
  match p with
  | Exits _ _ _ _ => true
  | Fails cls _ => derives_Exception cls
  end.

(** ** The pool and the collection loop *)

Definition task : Type := Z * Z * process_behaviour.

(** [str] succeeds on the two numbers of the task. *)
Definition numbers_fit (t : task) : bool :=
  let '(lambda_val, tau, _) := t in str_fits lambda_val && str_fits tau.

Inductive future_state :=
| Pending
| Running
| Finished (r : completion (option string)).

Definition is_pending (f : future_state) : bool :=
  match f with Pending => true | _ => false end.
Definition is_running (f : future_state) : bool :=
  match f with Running => true | _ => false end.

Definition count (P : future_state -> bool) (fs : list future_state) : nat :=
  length (List.filter P fs).

(** The state of [main] from line 83 on: one future per submitted task in
    the order of submission, the console, the results file, the position
    of the loop [for future in futures], and the exception that ended
    [main] if [future.result()] raised one. *)
Record sweep_state := {
  futures : list future_state;
  console : list string;
  file : csv_file;
  next : nat;
  raised : option exception
}.

(** What can happen next: a worker takes the task at the head of the queue,
    a running task finishes, or the main thread handles the future it is
    waiting for. *)
Inductive action :=
| Start (i : nat)
| Finish (i : nat)
| Collect.

Section Sweep.

Variable benchmark_bin : string.
Variable max_workers : Z.
Variable tasks : list task.

(** What the call submitted for a task prints and how it completes. *)
Definition run_task (t : task) : list string * completion (option string) :=
  let '(lambda_val, tau, p) := t in
  call_run_benchmark lambda_val tau benchmark_bin p.

(** Lines 72-81 and 84: every task is submitted, the file is reopened. *)
Definition submitted : sweep_state :=
  {| futures := map (fun _ => Pending) tasks;
     console := [];
     file := header_written;
     next := 0;
     raised := None |}.

(** One step.  [None]: the action is not enabled.
    - [Start i]: the queue is first in, first out, and at most
      [max_workers] tasks run at a time.
    - [Finish i]: the result of a running task is stored in its future.
    - [Collect]: [future.result()] blocks until the future at [next] is
      finished; it returns the value, and lines 88-90 run, or it raises the
      exception of the task again, which ends [main]. *)
Definition step (a : action) (s : sweep_state) : option sweep_state :=
  match a with
  | Start i =>
      match futures s !! i with
      | Some Pending =>
          if forallb (fun f => negb (is_pending f)) (take i (futures s))
             && (Z.of_nat (count is_running (futures s)) <? max_workers)
          then Some {| futures := <[i := Running]> (futures s);
                       console := console s; file := file s;
                       next := next s; raised := raised s |}
          else None
      | _ => None
      end
  | Finish i =>
      match futures s !! i, tasks !! i with
      | Some Running, Some t =>
          Some {| futures := <[i := Finished (snd (run_task t))]> (futures s);
                  console := console s ++ fst (run_task t);
                  file := file s; next := next s; raised := raised s |}
      | _, _ => None
      end
  | Collect =>
      match raised s, futures s !! next s with
      | None, Some (Finished (Returned result)) =>
          Some {| futures := futures s; console := console s;
                  file := collect_one result (file s);
                  next := S (next s); raised := None |}
      | None, Some (Finished (Raised e)) =>
          Some {| futures := futures s; console := console s;
                  file := file s; next := next s; raised := Some e |}
      | _, _ => None
      end
  end.

(** A schedule is run from a state, action by action. *)
Fixpoint run (sched : list action) (s : sweep_state) : option sweep_state :=
  match sched with
  | [] => Some s
  | a :: sched' =>
      match step a s with
      | Some s' => run sched' s'
      | None => None
      end
  end.

(** The loop has handled every future. *)
Definition complete (s : sweep_state) : Prop :=
  next s = length tasks /\ raised s = None.

(** The results of the tasks, in the order of submission. *)
Definition results : list (completion (option string)) :=
  map (fun t => snd (run_task t)) tasks.

(** Every call of [run_benchmark] returns: none raises. *)
Definition all_return : Prop :=
  forall r, r ∈ results -> exists v, r = Returned v.

(** What holds in every state reached from [submitted]: a finished future
    holds the result of its task, every future before [next] has returned
    a value, the file holds the header and then the rows of the results
    before [next], in their order, with nothing left in the buffer, and
    an exception that ended [main] is the one of the future at [next]. *)
Record invariant (s : sweep_state) : Prop := {
  inv_length : length (futures s) = length tasks;
  inv_finished : forall i r,
    futures s !! i = Some (Finished r) -> results !! i = Some r;
  inv_handled : forall j, (j < next s)%nat ->
    exists v, futures s !! j = Some (Finished (Returned v));
  inv_file : file s =
    {| disk := header :: rows_of (take (next s) results); buffer := [] |};
  inv_raised : forall e, raised s = Some e ->
    futures s !! next s = Some (Finished (Raised e))
}.

(** Every step makes this smaller. *)
Definition measure (s : sweep_state) : nat :=
  2 * count is_pending (futures s) + count is_running (futures s)
  + (length tasks - next s)
  + match raised s with Some _ => 0 | None => 1 end.

End Sweep.

(** ** [main] *)

Record args := {
  output : string;
  benchmark_bin : string;   (* [Path(args.benchmark_bin).absolute()] as text *)
  threads : Z
}.

(** The tasks of a list of parameters; [env i] is what the executable does
    in the invocation submitted at position [i]. *)
Definition tasks_of (params : list (Z * Z)) (env : nat -> process_behaviour)
    : list task :=
  imap (fun i '(lambda_val, tau) => (lambda_val, tau, env i)) params.

(** [main] up to the collection loop, for a given parameter space:
    [ThreadPoolExecutor] raises [ValueError] when [max_workers <= 0], after
    the header has been written. *)
Definition main_with (lambdas taus : list Z) (a : args)
    (env : nat -> process_behaviour) : sweep_state :=
  if threads a <=? 0 then
    {| futures := []; console := []; file := header_written; next := 0%nat;
       raised := Some (OtherException ValueError "max_workers must be greater than 0") |}
  else submitted (tasks_of (param_combinations lambdas taus) env).

(** Lines 49-50: the parameter space of the source. *)
Definition lambdas : list Z := [40].
Definition taus : list Z := Py.range 10 11.

Definition main (a : args) (env : nat -> process_behaviour) : sweep_state :=
  main_with lambdas taus a env.

(** ** The console of a sweep *)

Definition is_finished (f : future_state) : bool :=
  match f with Finished _ => true | _ => false end.

(** The lines all the tasks print, task by task in the order of
    submission. *)
Definition printed (bin : string) (ts : list task) : list string :=
  concat (map (fun t => fst (run_task bin t)) ts).

(** A result that is [None]. *)
Definition is_None (r : completion (option string)) : bool :=
  match r with Returned None => true | _ => false end.

(** A result that is the empty text. *)
Definition is_empty_text (r : completion (option string)) : bool :=
  match r with Returned (Some EmptyString) => true | _ => false end.

(** How many results satisfy a test. *)
Definition count_results (P : completion (option string) -> bool)
    (rs : list (completion (option string))) : nat :=
  length (List.filter P rs).

(** ** Example invocations and sweeps *)

Module Ex.

Definition bin : string := "/abs/my_app".

Definition a : args :=
  {| output := "param_results.csv"; benchmark_bin := bin; threads := 4 |}.

(** A stub that prints one line and exits with 0. *)
Definition prints (line : string) : process_behaviour :=
  Exits 1 0 (line +:+ Py.newline) "".

(** A stub that sleeps beyond the timeout. *)
Definition sleeps : process_behaviour := Exits 5000 0 "a,b" "".

(** A stub that exits with 2 after a message on its error stream. *)
Definition exits_2 : process_behaviour := Exits 1 2 "" "boom".

(** An executable that is not there. *)
Definition missing : process_behaviour :=
  Fails FileNotFoundError "[Errno 2] No such file or directory: '/abs/my_app'".

(** A stub that exits with 0 and prints nothing. *)
Definition silent : process_behaviour := Exits 1 0 "" "".

(** Two tuples; the first invocation is [p], the second prints [c,d]. *)
Definition two (p : process_behaviour) : list task :=
  [(40, 10, p); (40, 11, prints "c,d")].

(** The first task is started, then the second, the second finishes
    first, and the loop handles both. *)
Definition second_finishes_first : list action :=
  [Start 0%nat; Start 1%nat; Finish 1%nat; Finish 0%nat; Collect; Collect].

(** One worker: each task is started, finished and handled in turn. *)
Definition one_by_one : list action :=
  [Start 0%nat; Finish 0%nat; Collect; Start 1%nat; Finish 1%nat; Collect].

(** The state a schedule leads to ([submitted] when it cannot be run). *)
Definition final (max_workers : Z) (tasks : list task) (sched : list action)
    : sweep_state :=
  match run bin max_workers tasks sched (submitted tasks) with
  | Some s => s
  | None => submitted tasks
  end.

(** Two tuples whose invocations both fail, the first by its exit status
    and the second because it runs too long. *)
Definition both_fail : list task :=
  [(40, 10, exits_2); (40, 11, sleeps)].

(** Three tuples: a failure, an empty output and a row. *)
Definition three : list task :=
  [(40, 10, exits_2); (40, 11, silent); (40, 12, prints "c,d")].

Definition three_one_by_one : list action :=
  [Start 0%nat; Finish 0%nat; Collect; Start 1%nat; Finish 1%nat; Collect;
   Start 2%nat; Finish 2%nat; Collect].

(** A number of 4301 digits. *)
Definition huge : Z := 10 ^ int_max_str_digits.

(** Two tuples; the first has a number that [str] refuses, the second
    prints [c,d]. *)
Definition first_huge : list task :=
  [(huge, 10, prints "a,b"); (40, 11, prints "c,d")].

(** A worker is interrupted in the first of two invocations. *)
Definition interrupted : list task :=
  two (Fails KeyboardInterrupt "").

End Ex.

(** * Properties *)

(** ** The grid *)

Lemma inner_loop_spec (csp : Z) (taus : list Z) (acc : list (Z * Z)) :
  fold_left (fun acc tau => acc ++ [(csp, tau)]) taus acc
  = acc ++ map (fun tau => (csp, tau)) taus.
Proof.
  revert acc. induction taus as [|tau taus IH]; intros acc; simpl.
  - by rewrite app_nil_r.
  - rewrite IH. by rewrite <- app_assoc.
Qed.

Lemma param_combinations_list_prod (lambdas taus : list Z) :
  param_combinations lambdas taus = list_prod lambdas taus.
Proof.
  unfold param_combinations.
  assert (H : forall acc,
    fold_left (fun acc csp => fold_left (fun acc tau => acc ++ [(csp, tau)]) taus acc)
      lambdas acc = acc ++ list_prod lambdas taus).
  { induction lambdas as [|csp lambdas IH]; intros acc; simpl.
    - by rewrite app_nil_r.
    - rewrite IH, inner_loop_spec. by rewrite <- app_assoc. }
  apply H.
Qed.

Lemma list_prod_lookup (lambdas taus : list Z) (i j : nat) (csp tau : Z) :
  lambdas !! i = Some csp -> taus !! j = Some tau ->
  list_prod lambdas taus !! (i * length taus + j)%nat = Some (csp, tau).
Proof.
  revert i. induction lambdas as [|c lambdas IH]; intros i Hi Hj; [done|].
  destruct i as [|i]; simpl in *.
  - apply lookup_lt_Some in Hj as Hlt.
    rewrite lookup_app_l by (by rewrite length_map).
    rewrite list_lookup_fmap, Hj. by inversion Hi.
  - rewrite lookup_app_r by (rewrite length_map; lia).
    rewrite length_map.
    replace (length taus + i * length taus + j - length taus)%nat
      with (i * length taus + j)%nat by lia.
    by apply IH.
Qed.

Lemma tasks_of_length (params : list (Z * Z)) (env : nat -> process_behaviour) :
  length (tasks_of params env) = length params.
Proof. unfold tasks_of. by rewrite length_imap. Qed.

(** ** Python strings *)

Lemma split_not_nil (sep : ascii) (s : string) : Py.split sep s <> [].
Proof.
  destruct s as [|c s]; simpl; [done|].
  destruct (Ascii.eqb c sep); [done|]. by destruct (Py.split sep s).
Qed.

Lemma append_String (c : ascii) (s t : string) :
  String c s +:+ t = String c (s +:+ t).
Proof. reflexivity. Qed.

Lemma append_Empty (t : string) : EmptyString +:+ t = t.
Proof. reflexivity. Qed.

Lemma lstrip_spec (s : string) :
  exists pre, s = pre +:+ Py.lstrip s /\ Py.all_space pre = true
              /\ Py.starts_with_space (Py.lstrip s) = false.
Proof.
  induction s as [|c s (pre & E & Hp & Hs)]; simpl.
  - by exists EmptyString.
  - destruct (Py.isspace c) eqn:Ec.
    + exists (String c pre). rewrite append_String. simpl. by rewrite <- E, Ec, Hp.
    + exists EmptyString. rewrite append_Empty. simpl. by rewrite Ec.
Qed.

Lemma rstrip_spec (s : string) :
  exists suf, s = Py.rstrip s +:+ suf /\ Py.all_space suf = true
              /\ Py.ends_with_space (Py.rstrip s) = false.
Proof.
  induction s as [|c s (suf & E & Hp & Hs)]; simpl.
  - by exists EmptyString.
  - destruct (Py.rstrip s) as [|d t] eqn:Er.
    + destruct (Py.isspace c) eqn:Ec.
      * exists (String c suf). rewrite append_Empty in *. simpl.
        subst suf. by rewrite Ec, Hp.
      * exists suf. rewrite append_Empty in E. rewrite !append_String, append_Empty.
        simpl. subst suf. by rewrite Ec.
    + exists suf. split; [|split; [done|]].
      * rewrite append_String. by rewrite <- E.
      * done.
Qed.

Lemma rstrip_starts (s : string) :
  Py.starts_with_space s = false -> Py.starts_with_space (Py.rstrip s) = false.
Proof.
  destruct s as [|c s]; simpl; [done|]. intros Hc.
  destruct (Py.rstrip s); [by rewrite Hc|done].
Qed.

(** [strip] removes white space at both ends and nothing else. *)
Lemma strip_spec (s : string) :
  exists pre suf, s = pre +:+ Py.strip s +:+ suf
    /\ Py.all_space pre = true /\ Py.all_space suf = true
    /\ Py.starts_with_space (Py.strip s) = false
    /\ Py.ends_with_space (Py.strip s) = false.
Proof.
  destruct (lstrip_spec s) as (pre & E1 & Hp & Hs).
  destruct (rstrip_spec (Py.lstrip s)) as (suf & E2 & Hq & He).
  exists pre, suf. unfold Py.strip. repeat split; try done.
  - by rewrite <- E2.
  - by apply rstrip_starts.
Qed.

(** ** The file *)

Lemma collect_one_rows (result : option string) (rows : list row) :
  collect_one result {| disk := header :: rows; buffer := [] |}
  = {| disk := header :: rows ++ rows_of [Returned result]; buffer := [] |}.
Proof.
  unfold collect_one, rows_of.
  destruct result as [[|c s]|]; simpl; by rewrite ?app_nil_r.
Qed.

Lemma rows_of_app (rs1 rs2 : list (completion (option string))) :
  rows_of (rs1 ++ rs2) = rows_of rs1 ++ rows_of rs2.
Proof. unfold rows_of. by rewrite flat_map_app. Qed.

Lemma rows_of_length_le (rs : list (completion (option string))) :
  (length (rows_of rs) <= length rs)%nat.
Proof.
  induction rs as [|r rs IH]; simpl; [lia|].
  rewrite length_app.
  destruct r as [[text|]|e]; simpl; [destruct (Py.truthy text); simpl|..]; lia.
Qed.

Lemma rows_of_length_eq (rs : list (completion (option string))) :
  length (rows_of rs) = length rs <-> forallb writes_row rs = true.
Proof.
  induction rs as [|r rs IH]; simpl; [done|].
  rewrite length_app. pose proof (rows_of_length_le rs) as Hle.
  destruct r as [[[|c s]|]|e]; simpl; try (split; [lia|done]).
  rewrite <- IH. lia.
Qed.

(** ** The pool: what every reachable state satisfies *)

Section SweepFacts.

Variable bin : string.
Variable max_workers : Z.
Variable tasks : list task.

Local Abbreviation step' := (step bin max_workers tasks).
Local Abbreviation run' := (run bin max_workers tasks).
Local Abbreviation results' := (results bin tasks).
Local Abbreviation invariant := (invariant bin tasks).

Lemma results_length : length results' = length tasks.
Proof. unfold results. by rewrite length_map. Qed.

Lemma invariant_submitted : invariant (submitted tasks).
Proof.
  split; simpl.
  - by rewrite length_map.
  - intros i r. rewrite list_lookup_fmap. by destruct (tasks !! i).
  - intros j Hj. lia.
  - done.
  - done.
Qed.

Lemma invariant_next_le (s : sweep_state) :
  invariant s -> (next s <= length tasks)%nat.
Proof.
  intros I. destruct (next s) as [|n] eqn:E; [lia|].
  destruct (inv_handled _ _ s I n) as [v Hv]; [lia|].
  apply lookup_lt_Some in Hv. rewrite (inv_length _ _ s I) in Hv. lia.
Qed.

Lemma invariant_step (a : action) (s s' : sweep_state) :
  invariant s -> step' a s = Some s' -> invariant s'.
Proof.
  intros I Hs. destruct a as [i|i|]; simpl in Hs.
  - destruct (futures s !! i) as [[| |r]|] eqn:Ei; try done.
    destruct (_ && _); [|done]. injection Hs as <-.
    split; simpl.
    + rewrite length_insert. apply I.
    + intros k r Hk. destruct (decide (i = k)) as [->|Hne].
      * rewrite list_lookup_insert_eq in Hk by (by eapply lookup_lt_Some). done.
      * rewrite list_lookup_insert_ne in Hk by done. by apply I.
    + intros j Hj. destruct (inv_handled _ _ s I j Hj) as [v Hv]. exists v.
      rewrite list_lookup_insert_ne; [done|]. intros ->. congruence.
    + apply I.
    + intros e He. apply (inv_raised _ _ s I) in He.
      rewrite list_lookup_insert_ne; [done|]. intros ->. congruence.
  - destruct (futures s !! i) as [[| |r]|] eqn:Ei; try done.
    destruct (tasks !! i) as [t|] eqn:Et; [|done]. injection Hs as <-.
    split; simpl.
    + rewrite length_insert. apply I.
    + intros k r Hk. destruct (decide (i = k)) as [->|Hne].
      * rewrite list_lookup_insert_eq in Hk by (by eapply lookup_lt_Some).
        injection Hk as <-. unfold results.
        by rewrite list_lookup_fmap, Et.
      * rewrite list_lookup_insert_ne in Hk by done. by apply I.
    + intros j Hj. destruct (inv_handled _ _ s I j Hj) as [v Hv]. exists v.
      rewrite list_lookup_insert_ne; [done|]. intros ->. congruence.
    + apply I.
    + intros e He. apply (inv_raised _ _ s I) in He.
      rewrite list_lookup_insert_ne; [done|]. intros ->. congruence.
  - destruct (raised s) eqn:Er; [done|].
    destruct (futures s !! next s) as [[| |[result|e]]|] eqn:En; try done;
      injection Hs as <-; split; simpl; try apply I.
    + intros j Hj. destruct (decide (j = next s)) as [->|Hne].
      * by exists result.
      * apply (inv_handled _ _ s I). lia.
    + rewrite (inv_file _ _ s I), collect_one_rows.
      apply (inv_finished _ _ s I) in En.
      by rewrite (take_S_r _ _ _ En), rows_of_app.
    + done.
    + by intros e' [= <-].
Qed.

Lemma invariant_run (sched : list action) (s s' : sweep_state) :
  invariant s -> run' sched s = Some s' -> invariant s'.
Proof.
  revert s. induction sched as [|a sched IH]; intros s I Hr; simpl in Hr.
  - by injection Hr as <-.
  - destruct (step' a s) as [s1|] eqn:E1; [|done].
    eapply IH; [|done]. by eapply invariant_step.
Qed.

(** The file of a reachable state holds, after the header, the rows of the
    results at the positions the loop has passed, in that order, and
    nothing is left in the buffer. *)
Lemma reachable_file (sched : list action) (s : sweep_state) :
  run' sched (submitted tasks) = Some s ->
  file s = {| disk := header :: rows_of (take (next s) results'); buffer := [] |}.
Proof. intros Hr. eapply inv_file, invariant_run, Hr. apply invariant_submitted. Qed.

Lemma complete_file (sched : list action) (s : sweep_state) :
  run' sched (submitted tasks) = Some s -> complete tasks s ->
  file s = {| disk := header :: rows_of results'; buffer := [] |}.
Proof.
  intros Hr [Hn _]. rewrite (reachable_file _ _ Hr), Hn.
  by rewrite <- results_length, firstn_all.
Qed.

Lemma invariant_not_raised (s : sweep_state) :
  all_return bin tasks -> invariant s -> raised s = None.
Proof.
  intros Hall I. destruct (raised s) as [e|] eqn:Er; [|done].
  apply (inv_raised _ _ s I), (inv_finished _ _ s I) in Er.
  apply list_elem_of_lookup_2, Hall in Er as [v Hv]. done.
Qed.

End SweepFacts.

(** ** The pool: progress and termination *)

Lemma count_cons (P : future_state -> bool) (f : future_state)
    (fs : list future_state) :
  count P (f :: fs) = ((if P f then 1 else 0) + count P fs)%nat.
Proof. unfold count. simpl. by destruct (P f). Qed.

Lemma count_insert (P : future_state -> bool) (fs : list future_state)
    (i : nat) (f g : future_state) :
  fs !! i = Some f ->
  (count P (<[i := g]> fs) + (if P f then 1 else 0)
   = count P fs + (if P g then 1 else 0))%nat.
Proof.
  revert i. induction fs as [|h fs IH]; intros i Hi; [done|].
  destruct i as [|i]; simpl in *.
  - injection Hi as ->. rewrite !count_cons. lia.
  - rewrite !count_cons. specialize (IH i Hi). lia.
Qed.

Lemma count_pos_lookup (P : future_state -> bool) (fs : list future_state) :
  (0 < count P fs)%nat -> exists i f, fs !! i = Some f /\ P f = true.
Proof.
  induction fs as [|h fs IH]; intros Hc.
  - unfold count in Hc. simpl in Hc. lia.
  - rewrite count_cons in Hc. destruct (P h) eqn:Eh.
    + by exists 0%nat, h.
    + destruct IH as (i & f & Hi & Hf); [lia|]. by exists (S i), f.
Qed.

Lemma first_pending (fs : list future_state) (j : nat) :
  fs !! j = Some Pending ->
  exists i, fs !! i = Some Pending
            /\ forallb (fun f => negb (is_pending f)) (take i fs) = true.
Proof.
  revert j. induction fs as [|h fs IH]; intros j Hj; [done|].
  destruct (is_pending h) eqn:Eh.
  - exists 0%nat. destruct h; try done.
  - destruct j as [|j]; simpl in Hj.
    + injection Hj as ->. done.
    + destruct (IH j Hj) as (i & Hi & Hf). exists (S i). simpl.
      by rewrite Eh, Hf.
Qed.

Section SweepProgress.

Variable bin : string.
Variable max_workers : Z.
Variable tasks : list task.

Local Abbreviation step_ := (step bin max_workers tasks).
Local Abbreviation run_ := (run bin max_workers tasks).
Local Abbreviation invariant_ := (invariant bin tasks).
Local Abbreviation measure := (measure tasks).

Lemma step_measure (a : action) (s s' : sweep_state) :
  invariant_ s -> step_ a s = Some s' -> (measure s' < measure s)%nat.
Proof.
  intros I Hs. destruct a as [i|i|]; simpl in Hs.
  - destruct (futures s !! i) as [[| |r]|] eqn:Ei; try done.
    destruct (_ && _); [|done]. injection Hs as <-.
    unfold measure; simpl.
    pose proof (count_insert is_pending _ _ _ Running Ei).
    pose proof (count_insert is_running _ _ _ Running Ei).
    simpl in *. lia.
  - destruct (futures s !! i) as [[| |r]|] eqn:Ei; try done.
    destruct (tasks !! i) as [t|] eqn:Et; [|done]. injection Hs as <-.
    unfold measure; simpl. generalize (snd (run_task bin t)). intros r.
    pose proof (count_insert is_pending _ _ _ (Finished r) Ei).
    pose proof (count_insert is_running _ _ _ (Finished r) Ei).
    simpl in *. lia.
  - destruct (raised s) eqn:Er; [done|].
    destruct (futures s !! next s) as [[| |[result|e]]|] eqn:En; try done;
      injection Hs as <-; unfold measure; simpl; rewrite Er.
    + apply lookup_lt_Some in En. rewrite (inv_length _ _ s I) in En. lia.
    + lia.
Qed.

(** A schedule is never longer than three steps per task, and one. *)
Lemma run_length (sched : list action) (s s' : sweep_state) :
  invariant_ s -> run_ sched s = Some s' ->
  (length sched + measure s' <= measure s)%nat.
Proof.
  revert s. induction sched as [|a sched IH]; intros s I Hr; simpl in Hr.
  - injection Hr as <-. simpl. lia.
  - destruct (step_ a s) as [s1|] eqn:E1; [|done].
    pose proof (step_measure _ _ _ I E1).
    apply IH in Hr; [|by eapply invariant_step]. simpl. lia.
Qed.

(** While [main] has futures left to handle, some action is enabled. *)
Lemma progress (s : sweep_state) :
  0 < max_workers -> invariant_ s -> raised s = None ->
  (next s < length tasks)%nat ->
  exists a s', step_ a s = Some s'.
Proof.
  intros Hw I Hr Hn.
  destruct (futures s !! next s) as [f|] eqn:En.
  2:{ apply lookup_ge_None in En. rewrite (inv_length _ _ s I) in En. lia. }
  destruct f as [| |[result|e]].
  - destruct (decide (0 < count is_running (futures s))%nat) as [Hrun|Hrun].
    + apply count_pos_lookup in Hrun as (i & f & Hi & Hf).
      destruct f; try done.
      destruct (tasks !! i) as [t|] eqn:Et.
      * exists (Finish i). simpl. rewrite Hi, Et. by eexists.
      * apply lookup_ge_None in Et. apply lookup_lt_Some in Hi.
        rewrite (inv_length _ _ s I) in Hi. lia.
    + destruct (first_pending _ _ En) as (i & Hi & Hf).
      exists (Start i). simpl. rewrite Hi, Hf.
      replace (count is_running (futures s)) with 0%nat by lia.
      change (Z.of_nat 0) with 0.
      rewrite (proj2 (Z.ltb_lt 0 max_workers) Hw). simpl. by eexists.
  - destruct (tasks !! next s) as [t|] eqn:Et.
    + exists (Finish (next s)). simpl. rewrite En, Et. by eexists.
    + apply lookup_ge_None in Et. lia.
  - exists Collect. simpl. rewrite Hr, En. by eexists.
  - exists Collect. simpl. rewrite Hr, En. by eexists.
Qed.

(** From every reachable state the sweep can be driven to its end: the loop
    has handled every future, or [future.result()] has raised. *)
Lemma can_finish (s : sweep_state) :
  0 < max_workers -> invariant_ s ->
  exists sched s', run_ sched s = Some s'
                   /\ (complete tasks s' \/ raised s' <> None).
Proof.
  intros Hw. remember (measure s) as n eqn:En.
  revert s En. induction n as [n IH] using lt_wf_ind. intros s En I.
  destruct (raised s) as [e|] eqn:Er.
  { exists [], s. split; [done|]. right. by rewrite Er. }
  destruct (decide (next s < length tasks)%nat) as [Hn|Hn].
  - destruct (progress s Hw I Er Hn) as (a & s1 & H1).
    pose proof (step_measure _ _ _ I H1) as Hm.
    destruct (IH (measure s1) ltac:(lia) s1 eq_refl) as (sched & s2 & H2 & Hc).
    { by eapply invariant_step. }
    exists (a :: sched), s2. simpl. by rewrite H1.
  - exists [], s. split; [done|]. left. split; [|done].
    pose proof (invariant_next_le _ _ s I). lia.
Qed.

End SweepProgress.

Lemma measure_submitted (tasks : list task) :
  measure tasks (submitted tasks) = (3 * length tasks + 1)%nat.
Proof.
  unfold measure. simpl. rewrite Nat.sub_0_r.
  assert (H : forall l : list task,
    count is_pending (map (fun _ => Pending) l) = length l
    /\ count is_running (map (fun _ => Pending) l) = 0%nat).
  { induction l as [|t l [IH1 IH2]]; [done|]. simpl.
    rewrite !count_cons. simpl. lia. }
  destruct (H tasks) as [-> ->]. lia.
Qed.

(** ** [run_benchmark], case by case *)

Lemma run_benchmark_success (lambda_val tau : Z) (bin : string)
    (duration : Z) (out err : string) :
  duration <= 3000 ->
  run_benchmark lambda_val tau bin (Exits duration 0 out err)
  = ([], Returned (Some out)).
Proof.
  intros Hd. unfold run_benchmark, subprocess_run.
  by rewrite (proj2 (Z.ltb_ge 3000 duration) Hd).
Qed.

Lemma run_benchmark_timeout (lambda_val tau : Z) (bin : string)
    (duration rc : Z) (out err : string) :
  3000 < duration ->
  run_benchmark lambda_val tau bin (Exits duration rc out err)
  = (["Unexpected error with " +:+ Py.join " " (cmd_of lambda_val tau bin)
        +:+ ": " +:+ exc_str (TimeoutExpired (cmd_of lambda_val tau bin) 3000)],
     Returned None).
Proof.
  intros Hd. unfold run_benchmark, subprocess_run.
  by rewrite (proj2 (Z.ltb_lt 3000 duration) Hd).
Qed.

Lemma run_benchmark_nonzero (lambda_val tau : Z) (bin : string)
    (duration rc : Z) (out err : string) :
  duration <= 3000 -> rc <> 0 ->
  run_benchmark lambda_val tau bin (Exits duration rc out err)
  = (["Error running " +:+ Py.join " " (cmd_of lambda_val tau bin)
        +:+ ":" +:+ Py.newline +:+ err],
     Returned None).
Proof.
  intros Hd Hrc. unfold run_benchmark, subprocess_run.
  rewrite (proj2 (Z.ltb_ge 3000 duration) Hd).
  by rewrite (proj2 (Z.eqb_neq rc 0) Hrc).
Qed.

Lemma run_benchmark_fails (lambda_val tau : Z) (bin : string)
    (cls : exc_class) (msg : string) :
  derives_Exception cls = true ->
  run_benchmark lambda_val tau bin (Fails cls msg)
  = (["Unexpected error with " +:+ Py.join " " (cmd_of lambda_val tau bin)
        +:+ ": " +:+ msg],
     Returned None).
Proof. intros Hc. unfold run_benchmark; simpl. by rewrite Hc. Qed.

Lemma run_benchmark_propagates (lambda_val tau : Z) (bin : string)
    (cls : exc_class) (msg : string) :
  derives_Exception cls = false ->
  run_benchmark lambda_val tau bin (Fails cls msg)
  = ([], Raised (OtherException cls msg)).
Proof. intros Hc. unfold run_benchmark; simpl. by rewrite Hc. Qed.

(** When nothing but an [Exception] can be raised, the call returns: the
    standard output of a child that exited with 0 in time, [None] if not. *)
Lemma run_benchmark_returns (lambda_val tau : Z) (bin : string)
    (p : process_behaviour) :
  exception_derived p = true ->
  exists printed v,
    run_benchmark lambda_val tau bin p = (printed, Returned v)
    /\ (v = None
        \/ exists duration out err,
             p = Exits duration 0 out err /\ duration <= 3000 /\ v = Some out).
Proof.
  intros Hp. destruct p as [duration rc out err|cls msg].
  - destruct (Z.ltb_spec 3000 duration) as [Hd|Hd].
    + rewrite run_benchmark_timeout by done. eauto.
    + destruct (decide (rc = 0)) as [->|Hrc].
      * rewrite run_benchmark_success by done.
        do 2 eexists. split; [done|]. right. by exists duration, out, err.
      * rewrite run_benchmark_nonzero by done. eauto.
  - rewrite run_benchmark_fails by done. eauto.
Qed.

(** ** The whole call: [str] on the numbers, then the [try] *)

Lemma pow2_13975_le : 2 ^ 13975 <= 10 ^ int_max_str_digits.
Proof.
  unfold int_max_str_digits.
  change 13975 with (13 * 1075). change 4300 with (4 * 1075).
  rewrite !Z.pow_mul_r by done.
  apply Z.pow_le_mono_l. split; [done|]. by vm_compute.
Qed.

(** [str] succeeds exactly on the numbers below [10 ^ 4300] in absolute
    value: those of at most 4300 digits. *)
Lemma str_fits_spec (n : Z) :
  str_fits n = true <-> Z.abs n < 10 ^ int_max_str_digits.
Proof.
  unfold str_fits.
  assert (Hpos : 0 < 10 ^ int_max_str_digits).
  { apply Z.pow_pos_nonneg; [reflexivity|discriminate]. }
  assert (Hn : Z.abs n <> 0 -> 0 < Z.abs n).
  { pose proof (Z.abs_nonneg n). lia. }
  pose proof pow2_13975_le as Hle.
  revert Hle Hpos. generalize (10 ^ int_max_str_digits). intros L Hle Hpos.
  destruct (Z.ltb_spec (Z.log2 (Z.abs n)) 13975) as [Hlog|Hlog].
  - split; [intros _|reflexivity].
    destruct (Z.eq_dec (Z.abs n) 0) as [->|Hne]; [exact Hpos|].
    apply Z.lt_le_trans with (2 ^ 13975); [|exact Hle].
    apply Z.log2_lt_pow2; [exact (Hn Hne)|exact Hlog].
  - apply Z.ltb_lt.
Qed.

Lemma build_cmd_fits (lambda_val tau : Z) (bin : string) :
  str_fits lambda_val && str_fits tau = true ->
  build_cmd lambda_val tau bin = Returned (cmd_of lambda_val tau bin).
Proof.
  intros [Hl Ht]%andb_prop. unfold build_cmd, str. by rewrite Hl, Ht.
Qed.

Lemma call_fits (lambda_val tau : Z) (bin : string) (p : process_behaviour) :
  str_fits lambda_val && str_fits tau = true ->
  call_run_benchmark lambda_val tau bin p = run_benchmark lambda_val tau bin p.
Proof. intros H. unfold call_run_benchmark. by rewrite build_cmd_fits. Qed.

Lemma call_not_fits (lambda_val tau : Z) (bin : string) (p : process_behaviour) :
  str_fits lambda_val && str_fits tau = false ->
  call_run_benchmark lambda_val tau bin p = ([], Raised int_str_limit_error).
Proof.
  intros H. unfold call_run_benchmark, build_cmd, str.
  destruct (str_fits lambda_val); [|done].
  destruct (str_fits tau); done.
Qed.

Lemma call_cases (lambda_val tau : Z) (bin : string) (p : process_behaviour) :
  call_run_benchmark lambda_val tau bin p = run_benchmark lambda_val tau bin p
  \/ call_run_benchmark lambda_val tau bin p = ([], Raised int_str_limit_error).
Proof.
  destruct (str_fits lambda_val && str_fits tau) eqn:E.
  - left. by apply call_fits.
  - right. by apply call_not_fits.
Qed.

Lemma huge_not_fits : str_fits Ex.huge = false.
Proof.
  apply not_true_iff_false. rewrite str_fits_spec. unfold Ex.huge.
  rewrite Z.abs_eq by (by apply Z.pow_nonneg). apply Z.lt_irrefl.
Qed.

(** ** Rows of a sweep *)

Lemma rows_of_delete (rs : list (completion (option string))) (i : nat)
    (r : completion (option string)) :
  rs !! i = Some r -> writes_row r = false ->
  rows_of (delete i rs) = rows_of rs.
Proof.
  intros Hi Hr. rewrite <- (take_drop_middle rs i r Hi) at 2.
  rewrite delete_take_drop, !rows_of_app.
  change (r :: drop (S i) rs) with ([r] ++ drop (S i) rs).
  rewrite rows_of_app. replace (rows_of [r]) with (@nil row); [done|].
  destruct r as [[[|c s]|]|e]; done.
Qed.

Lemma rows_of_elem (rs : list (completion (option string))) (i : nat)
    (text : string) :
  rs !! i = Some (Returned (Some text)) -> text <> EmptyString ->
  row_of text ∈ rows_of rs.
Proof.
  intros Hi Ht. rewrite <- (take_drop_middle rs i _ Hi).
  change (Returned (Some text) :: drop (S i) rs)
    with ([Returned (Some text)] ++ drop (S i) rs).
  rewrite !rows_of_app. apply elem_of_app. right. apply elem_of_app. left.
  destruct text as [|c s]; [done|]. simpl. apply list_elem_of_singleton. done.
Qed.

Section SweepRows.

Variable bin : string.
Variable max_workers : Z.
Variable tasks : list task.

Lemma results_lookup (i : nat) (lambda_val tau : Z) (p : process_behaviour) :
  tasks !! i = Some (lambda_val, tau, p) ->
  results bin tasks !! i = Some (snd (call_run_benchmark lambda_val tau bin p)).
Proof.
  intros Hi. unfold results. rewrite list_lookup_fmap.
  unfold task in *. by rewrite Hi.
Qed.

(** A task whose [try] statement gives no row gives none as a whole. *)
Lemma results_no_row (i : nat) (lambda_val tau : Z) (p : process_behaviour) :
  tasks !! i = Some (lambda_val, tau, p) ->
  writes_row (snd (run_benchmark lambda_val tau bin p)) = false ->
  exists r, results bin tasks !! i = Some r /\ writes_row r = false.
Proof.
  intros Hi Hw. eexists. split; [by apply results_lookup|].
  by destruct (call_cases lambda_val tau bin p) as [-> | ->].
Qed.

Lemma complete_data_rows (sched : list action) (s : sweep_state) :
  run bin max_workers tasks sched (submitted tasks) = Some s ->
  complete tasks s ->
  data_rows (file s) = rows_of (results bin tasks) /\ buffer (file s) = [].
Proof. intros Hr Hc. by rewrite (complete_file _ _ _ _ _ Hr Hc). Qed.

Lemma exception_derived_all_return :
  Forall (fun t : task => numbers_fit t = true) tasks ->
  Forall (fun t : task => exception_derived (snd t) = true) tasks ->
  all_return bin tasks.
Proof.
  intros Hfit Hall r Hr. unfold results in Hr.
  apply list_elem_of_fmap in Hr as ([[lambda_val tau] p] & -> & Ht).
  rewrite Forall_forall in Hall, Hfit.
  apply Hall in Ht as Hp. apply Hfit in Ht as Hf. simpl in *.
  rewrite call_fits by done.
  destruct (run_benchmark_returns lambda_val tau bin p Hp) as (pr & v & E & _).
  exists v. by rewrite E.
Qed.

Lemma reachable_not_raised (sched : list action) (s : sweep_state) :
  all_return bin tasks ->
  run bin max_workers tasks sched (submitted tasks) = Some s ->
  raised s = None.
Proof.
  intros Hall Hr. eapply invariant_not_raised; [done|].
  eapply invariant_run; [|done]. apply invariant_submitted.
Qed.

End SweepRows.

(** When the first call raises, [future.result()] raises it at the first
    turn of the loop: no state has a data row or is complete, and the
    state in which [main] has ended with the exception is reached. *)
Lemma first_call_raises (bin : string) (max_workers : Z) (tasks : list task)
    (e : exception) :
  0 < max_workers ->
  results bin tasks !! 0%nat = Some (Raised e) ->
  (forall sched s,
     run bin max_workers tasks sched (submitted tasks) = Some s ->
     data_rows (file s) = [] /\ ~ complete tasks s)
  /\ exists sched s,
       run bin max_workers tasks sched (submitted tasks) = Some s
       /\ raised s = Some e.
Proof.
  intros Hw H0.
  assert (Hnext : forall s, invariant bin tasks s -> next s = 0%nat).
  { intros s I. destruct (next s) as [|n] eqn:En; [done|].
    destruct (inv_handled _ _ s I 0%nat) as [v Hv]; [lia|].
    apply (inv_finished _ _ s I) in Hv. congruence. }
  assert (Hlen : (0 < length tasks)%nat).
  { apply lookup_lt_Some in H0. by rewrite results_length in H0. }
  split.
  - intros sched s Hr.
    assert (I : invariant bin tasks s).
    { eapply invariant_run; [|done]. apply invariant_submitted. }
    rewrite (inv_file _ _ s I), (Hnext s I). split; [done|].
    intros [Hn _]. rewrite (Hnext s I) in Hn. lia.
  - destruct (can_finish bin max_workers tasks (submitted tasks) Hw
                (invariant_submitted bin tasks)) as (sched & s & Hr & Hend).
    assert (I : invariant bin tasks s).
    { eapply invariant_run; [|done]. apply invariant_submitted. }
    exists sched, s. split; [done|]. destruct Hend as [[Hn _]|Hne].
    + rewrite (Hnext s I) in Hn. lia.
    + destruct (raised s) as [e'|] eqn:He; [|done]. f_equal.
      apply (inv_raised _ _ s I), (inv_finished _ _ s I) in He.
      rewrite (Hnext s I) in He. congruence.
Qed.

Lemma first_huge_result :
  results Ex.bin Ex.first_huge !! 0%nat = Some (Raised int_str_limit_error).
Proof.
  rewrite (results_lookup Ex.bin Ex.first_huge 0 Ex.huge 10 (Ex.prints "a,b"))
    by reflexivity.
  rewrite call_not_fits; [done|]. by rewrite huge_not_fits.
Qed.

(** * The claims *)

(** ** C1: an invocation that exceeds the timeout *)

(** C1, as stated, fails: [run_benchmark] does not set a timeout apart
    from an unexpected error.  A child that exceeds the timeout and an
    executable that cannot be launched both end in the fallback handler:
    the value returned is the same [None], and the line printed for the
    timeout is a line of unexpected errors. *)
Lemma timeout_reported_as_unexpected_error :
  run_benchmark 40 10 Ex.bin Ex.sleeps
  = (["Unexpected error with /abs/my_app 40 10: Command '['/abs/my_app', '40', '10']' timed out after 3000 seconds"],
     Returned None)
  /\ run_benchmark 40 10 Ex.bin Ex.missing
     = (["Unexpected error with /abs/my_app 40 10: [Errno 2] No such file or directory: '/abs/my_app'"],
        Returned None)
  /\ snd (run_benchmark 40 10 Ex.bin Ex.sleeps)
     = snd (run_benchmark 40 10 Ex.bin Ex.missing)
  /\ Forall (fun line => Py.startswith line "Unexpected error with " = true)
       (fst (run_benchmark 40 10 Ex.bin Ex.sleeps)
        ++ fst (run_benchmark 40 10 Ex.bin Ex.missing)).
Proof. repeat split; try reflexivity. repeat constructor. Qed.

(** C1, amended: for a child that runs for more than 3000 seconds,
    [run_benchmark] returns [None] from its fallback handler, which prints
    the line of an unexpected error with the description of the expired
    timeout: what it prints and returns is what it prints and returns for
    any other [Exception] of that description.  In every complete sweep
    the tuple adds no row to the results file: the data rows are those of
    the other tuples. *)
Theorem timeout_returns_None_and_no_row (bin : string) (max_workers : Z)
    (tasks : list task) (i : nat) (lambda_val tau duration rc : Z)
    (out err : string) :
  tasks !! i = Some (lambda_val, tau, Exits duration rc out err) ->
  3000 < duration ->
  run_benchmark lambda_val tau bin (Exits duration rc out err)
  = (["Unexpected error with " +:+ Py.join " " (cmd_of lambda_val tau bin)
        +:+ ": Command '" +:+ Py.repr_list (cmd_of lambda_val tau bin)
        +:+ "' timed out after 3000 seconds"],
     Returned None)
  /\ (forall cls, derives_Exception cls = true ->
        run_benchmark lambda_val tau bin (Exits duration rc out err)
        = run_benchmark lambda_val tau bin
            (Fails cls (exc_str (TimeoutExpired (cmd_of lambda_val tau bin) 3000))))
  /\ (forall f, collect_one None f = f)
  /\ (forall sched s,
        run bin max_workers tasks sched (submitted tasks) = Some s ->
        complete tasks s ->
        data_rows (file s) = rows_of (delete i (results bin tasks))).
Proof.
  intros Hi Hd. split; [by rewrite run_benchmark_timeout|].
  split; [intros cls Hc; by rewrite run_benchmark_timeout, run_benchmark_fails|].
  split; [done|].
  intros sched s Hr Hc.
  destruct (complete_data_rows _ _ _ _ _ Hr Hc) as [-> _].
  destruct (results_no_row bin tasks i _ _ _ Hi) as (r & Hr' & Hw);
    [by rewrite run_benchmark_timeout|].
  symmetry. by eapply rows_of_delete.
Qed.

Lemma timeout_returns_None_and_no_row_witness :
  Ex.two Ex.sleeps !! 0%nat = Some (40, 10, Exits 5000 0 "a,b" "")
  /\ 3000 < 5000
  /\ run_benchmark 40 10 Ex.bin (Exits 5000 0 "a,b" "")
     = (["Unexpected error with " +:+ Py.join " " (cmd_of 40 10 Ex.bin)
           +:+ ": Command '" +:+ Py.repr_list (cmd_of 40 10 Ex.bin)
           +:+ "' timed out after 3000 seconds"],
        Returned None)
  /\ data_rows (file (Ex.final 1 (Ex.two Ex.sleeps) Ex.one_by_one))
     = rows_of (delete 0%nat (results Ex.bin (Ex.two Ex.sleeps)))
  /\ disk (file (Ex.final 1 (Ex.two Ex.sleeps) Ex.one_by_one))
     = [header; ["c"; "d"]].
Proof.
  split; [reflexivity|]. split; [lia|].
  destruct (timeout_returns_None_and_no_row Ex.bin 1 (Ex.two Ex.sleeps) 0%nat
              40 10 5000 0 "a,b" "") as (H1 & _ & _ & H3); [reflexivity|lia|].
  split; [exact H1|]. split; [|reflexivity].
  apply (H3 Ex.one_by_one); [reflexivity|]. split; reflexivity.
Defined.

(** ** C6: an invocation that exits with a non-zero status *)

(** C6: for a child that exits in time with a non-zero status,
    [run_benchmark] returns [None], the line its first handler prints
    holds the captured error stream, no other failure prints a line that
    starts like it, and in every complete sweep the tuple adds no row to
    the results file. *)
Theorem nonzero_exit_returns_None_and_no_row (bin : string) (max_workers : Z)
    (tasks : list task) (i : nat) (lambda_val tau duration rc : Z)
    (out err : string) :
  tasks !! i = Some (lambda_val, tau, Exits duration rc out err) ->
  duration <= 3000 -> rc <> 0 ->
  run_benchmark lambda_val tau bin (Exits duration rc out err)
  = (["Error running " +:+ Py.join " " (cmd_of lambda_val tau bin)
        +:+ ":" +:+ Py.newline +:+ err],
     Returned None)
  /\ (forall p line,
        fst (run_benchmark lambda_val tau bin p) = [line] ->
        Py.startswith line "Error running " = true ->
        exists d c o e, p = Exits d c o e /\ d <= 3000 /\ c <> 0)
  /\ (forall sched s,
        run bin max_workers tasks sched (submitted tasks) = Some s ->
        complete tasks s ->
        data_rows (file s) = rows_of (delete i (results bin tasks))).
Proof.
  intros Hi Hd Hrc. split; [by rewrite run_benchmark_nonzero|]. split.
  - intros p line Hp Hl. destruct p as [d c o e|cls msg].
    + destruct (Z.ltb_spec 3000 d) as [Hlt|Hle].
      * rewrite run_benchmark_timeout in Hp by done.
        injection Hp as <-. done.
      * destruct (decide (c = 0)) as [->|Hc].
        -- by rewrite run_benchmark_success in Hp.
        -- by exists d, c, o, e.
    + destruct (derives_Exception cls) eqn:Ec.
      * rewrite run_benchmark_fails in Hp by done. injection Hp as <-. done.
      * by rewrite run_benchmark_propagates in Hp.
  - intros sched s Hr Hc.
    destruct (complete_data_rows _ _ _ _ _ Hr Hc) as [-> _].
    destruct (results_no_row bin tasks i _ _ _ Hi) as (r & Hr' & Hw);
      [by rewrite run_benchmark_nonzero|].
    symmetry. by eapply rows_of_delete.
Qed.

Lemma nonzero_exit_returns_None_and_no_row_witness :
  Ex.two Ex.exits_2 !! 0%nat = Some (40, 10, Exits 1 2 "" "boom")
  /\ 1 <= 3000 /\ 2 <> 0
  /\ run_benchmark 40 10 Ex.bin (Exits 1 2 "" "boom")
     = (["Error running " +:+ Py.join " " (cmd_of 40 10 Ex.bin)
           +:+ ":" +:+ Py.newline +:+ "boom"],
        Returned None)
  /\ data_rows (file (Ex.final 1 (Ex.two Ex.exits_2) Ex.one_by_one))
     = rows_of (delete 0%nat (results Ex.bin (Ex.two Ex.exits_2))).
Proof.
  split; [reflexivity|]. split; [lia|]. split; [lia|].
  destruct (nonzero_exit_returns_None_and_no_row Ex.bin 1 (Ex.two Ex.exits_2)
              0%nat 40 10 1 2 "" "boom") as (H1 & _ & H3);
    [reflexivity|lia|lia|].
  split; [exact H1|].
  apply (H3 Ex.one_by_one); [reflexivity|]. split; reflexivity.
Defined.

(** ** C9: [run_benchmark] returns whenever what is raised is an [Exception] *)

(** C9, as stated, fails: the command line is built on lines 11-15, before
    the [try].  For a number of 4301 digits [str] raises [ValueError],
    which derives from [Exception]; no handler covers it, the call of
    [run_benchmark] raises it, and [future.result()] raises it in [main]:
    no schedule completes the sweep. *)
Lemma str_raises_outside_the_try :
  call_run_benchmark Ex.huge 10 Ex.bin (Ex.prints "a,b")
  = ([], Raised int_str_limit_error)
  /\ is_Exception int_str_limit_error = true
  /\ (forall sched s,
        run Ex.bin 2 Ex.first_huge sched (submitted Ex.first_huge) = Some s ->
        ~ complete Ex.first_huge s)
  /\ exists sched s,
       run Ex.bin 2 Ex.first_huge sched (submitted Ex.first_huge) = Some s
       /\ raised s = Some int_str_limit_error.
Proof.
  split; [apply call_not_fits; by rewrite huge_not_fits|]. split; [done|].
  destruct (first_call_raises Ex.bin 2 Ex.first_huge int_str_limit_error)
    as [Hall Hex]; [done|apply first_huge_result|].
  split; [|done]. intros sched s Hr. exact (proj2 (Hall sched s Hr)).
Qed.

(** C9, amended: for a tuple whose two numbers [str] can print (at most
    4300 digits each), when [subprocess.run] returns or raises an exception
    that derives from [Exception], the call of [run_benchmark] returns: the
    captured standard output of a child that exited with 0 in time, [None]
    otherwise, the first handler taking a non-zero exit and the fallback
    handler the expired timeout and every other [Exception].  So in a sweep
    of such tasks no state is reached in which [future.result()] has
    raised.  For a number of more than 4300 digits the call raises the
    [ValueError] of [str], whatever the child would do. *)
Theorem run_benchmark_returns_when_str_succeeds (bin : string)
    (max_workers : Z) (tasks : list task) (i : nat) (lambda_val tau : Z)
    (p : process_behaviour) :
  Forall (fun t : task => numbers_fit t = true) tasks ->
  Forall (fun t : task => exception_derived (snd t) = true) tasks ->
  tasks !! i = Some (lambda_val, tau, p) ->
  (exists printed v,
     call_run_benchmark lambda_val tau bin p = (printed, Returned v)
     /\ match p with
        | Exits duration rc out err =>
            if 3000 <? duration then
              v = None /\ exists line, printed = [line]
                /\ Py.startswith line "Unexpected error with " = true
            else if rc =? 0 then v = Some out /\ printed = []
            else v = None /\ exists line, printed = [line]
                /\ Py.startswith line "Error running " = true
        | Fails cls msg =>
            v = None /\ exists line, printed = [line]
              /\ Py.startswith line "Unexpected error with " = true
        end)
  /\ (forall sched s,
        run bin max_workers tasks sched (submitted tasks) = Some s ->
        raised s = None)
  /\ (forall lambda_val' tau' p',
        str_fits lambda_val' && str_fits tau' = false ->
        call_run_benchmark lambda_val' tau' bin p'
        = ([], Raised int_str_limit_error)).
Proof.
  intros Hfit Hall Hi. split; [|split].
  - assert (Hp : exception_derived p = true).
    { rewrite Forall_forall in Hall.
      apply (Hall (lambda_val, tau, p)). by eapply list_elem_of_lookup_2. }
    assert (Hf : str_fits lambda_val && str_fits tau = true).
    { rewrite Forall_forall in Hfit.
      apply (Hfit (lambda_val, tau, p)). by eapply list_elem_of_lookup_2. }
    rewrite call_fits by done.
    destruct p as [duration rc out err|cls msg].
    + destruct (Z.ltb_spec 3000 duration) as [Hd|Hd].
      * rewrite run_benchmark_timeout by done. do 2 eexists. split; [done|].
        split; [done|]. eexists. split; reflexivity.
      * destruct (Z.eqb_spec rc 0) as [->|Hrc].
        -- rewrite run_benchmark_success by done. eauto.
        -- rewrite run_benchmark_nonzero by done. do 2 eexists.
           split; [done|]. split; [done|]. eexists. split; reflexivity.
    + rewrite run_benchmark_fails by done. do 2 eexists. split; [done|].
      split; [done|]. eexists. split; reflexivity.
  - intros sched s Hr. eapply reachable_not_raised; [|done].
    by apply exception_derived_all_return.
  - intros lambda_val' tau' p'. apply call_not_fits.
Qed.

Lemma run_benchmark_returns_when_str_succeeds_witness :
  Forall (fun t : task => numbers_fit t = true) (Ex.two Ex.missing)
  /\ Forall (fun t : task => exception_derived (snd t) = true) (Ex.two Ex.missing)
  /\ Ex.two Ex.missing !! 0%nat = Some (40, 10, Ex.missing)
  /\ (exists printed v,
        call_run_benchmark 40 10 Ex.bin Ex.missing = (printed, Returned v)
        /\ v = None)
  /\ raised (Ex.final 2 (Ex.two Ex.missing) Ex.second_finishes_first) = None.
Proof.
  assert (Hf : Forall (fun t : task => numbers_fit t = true) (Ex.two Ex.missing)).
  { repeat constructor. }
  assert (H : Forall (fun t : task => exception_derived (snd t) = true)
                (Ex.two Ex.missing)).
  { repeat constructor. }
  split; [exact Hf|]. split; [exact H|]. split; [reflexivity|].
  destruct (run_benchmark_returns_when_str_succeeds Ex.bin 2 (Ex.two Ex.missing)
              0%nat 40 10 Ex.missing Hf H eq_refl)
    as [(printed & v & E & Hv & _) [Hs _]].
  split.
  - exists printed, v. split; [exact E|exact Hv].
  - apply (Hs Ex.second_finishes_first). reflexivity.
Defined.

(** An exception that does not derive from [Exception] is not caught: it
    comes out of [run_benchmark], and [future.result()] raises it in
    [main]. *)
Example run_benchmark_propagates_KeyboardInterrupt :
  snd (run_benchmark 40 10 Ex.bin (Fails KeyboardInterrupt ""))
  = Raised (OtherException KeyboardInterrupt "")
  /\ raised (Ex.final 1 (Ex.two (Fails KeyboardInterrupt ""))
               [Start 0%nat; Finish 0%nat; Collect])
     = Some (OtherException KeyboardInterrupt "").
Proof. split; reflexivity. Qed.

(** ** C10: an empty standard output *)

(** C10: for a child that exits with 0 in time and prints nothing,
    [run_benchmark] returns the empty text and prints no line; the loop
    writes no row for it, as for [None], so in every complete sweep the
    tuple adds no row; a text of one line feed, or any other text that is
    white space only, passes the guard and is written as a row of one
    empty field. *)
Theorem empty_output_writes_no_row (bin : string) (max_workers : Z)
    (tasks : list task) (i : nat) (lambda_val tau duration : Z) (err : string) :
  tasks !! i = Some (lambda_val, tau, Exits duration 0 "" err) ->
  duration <= 3000 ->
  run_benchmark lambda_val tau bin (Exits duration 0 "" err)
  = ([], Returned (Some ""))
  /\ (forall f, collect_one (Some "") f = f
                /\ collect_one (Some "") f = collect_one None f)
  /\ (forall sched s,
        run bin max_workers tasks sched (submitted tasks) = Some s ->
        complete tasks s ->
        data_rows (file s) = rows_of (delete i (results bin tasks)))
  /\ (forall f, collect_one (Some Py.newline) f = flush (writerow [""] f))
  /\ (forall text f, text <> "" -> Py.all_space text = true ->
        collect_one (Some text) f = flush (writerow [""] f)).
Proof.
  intros Hi Hd. split; [by rewrite run_benchmark_success|].
  split; [done|]. split; [|split; [done|]].
  - intros sched s Hr Hc.
    destruct (complete_data_rows _ _ _ _ _ Hr Hc) as [-> _].
    destruct (results_no_row bin tasks i _ _ _ Hi) as (r & Hr' & Hw);
      [by rewrite run_benchmark_success|].
    symmetry. by eapply rows_of_delete.
  - intros text f Ht Hs. unfold collect_one.
    destruct text as [|c text]; [done|]. simpl Py.truthy_opt. cbv iota.
    unfold row_of. replace (Py.strip (String c text)) with ""; [done|].
    unfold Py.strip. generalize (String c text) Hs. clear.
    induction s as [|d s IH]; simpl; [done|].
    intros [Hd Hs]%andb_prop. rewrite Hd. by apply IH.
Qed.

Lemma empty_output_writes_no_row_witness :
  Ex.two Ex.silent !! 0%nat = Some (40, 10, Exits 1 0 "" "")
  /\ 1 <= 3000
  /\ run_benchmark 40 10 Ex.bin (Exits 1 0 "" "") = ([], Returned (Some ""))
  /\ disk (file (Ex.final 2 (Ex.two Ex.silent) Ex.second_finishes_first))
     = [header; ["c"; "d"]]
  /\ disk (file (Ex.final 2 (Ex.two (Exits 1 0 Py.newline "")) Ex.second_finishes_first))
     = [header; [""]; ["c"; "d"]].
Proof.
  split; [reflexivity|]. split; [lia|].
  destruct (empty_output_writes_no_row Ex.bin 2 (Ex.two Ex.silent) 0%nat
              40 10 1 "") as (H1 & _ & H3 & _); [reflexivity|lia|].
  split; [exact H1|]. split; [|reflexivity].
  specialize (H3 Ex.second_finishes_first _ eq_refl (conj eq_refl eq_refl)).
  reflexivity.
Defined.

(** ** C7: the row written for a text *)

Lemma concat_cons (sep x : string) (l : list string) :
  l <> [] -> String.concat sep (x :: l) = x +:+ sep +:+ String.concat sep l.
Proof. by destruct l. Qed.

(** Splitting on commas loses nothing: the fields joined by commas are the
    text again. *)
Lemma split_join (s : string) : Py.join "," (Py.split "," s) = s.
Proof.
  unfold Py.join. induction s as [|c s IH]; simpl; [done|].
  pose proof (split_not_nil "," s) as Hne.
  destruct (Ascii.eqb_spec c ",") as [->|Hc].
  - rewrite concat_cons by done. by rewrite IH.
  - destruct (Py.split "," s) as [|f fs]; [done|].
    destruct fs as [|g fs].
    + simpl in *. by rewrite IH.
    + rewrite concat_cons by done. rewrite concat_cons in IH by done.
      rewrite append_String. by rewrite IH.
Qed.

(** No field holds a comma. *)
Lemma split_no_comma (s f : string) :
  f ∈ Py.split "," s -> Py.contains "," f = false.
Proof.
  revert f. induction s as [|c s IH]; simpl; intros f Hf.
  - apply list_elem_of_singleton in Hf as ->. done.
  - destruct (Ascii.eqb_spec c ",") as [->|Hc].
    + apply elem_of_cons in Hf as [->|Hf]; [done|by apply IH].
    + pose proof (split_not_nil "," s) as Hne.
      destruct (Py.split "," s) as [|g gs]; [done|].
      apply elem_of_cons in Hf as [->|Hf].
      * change (Py.contains "," (String c g))
          with (Ascii.eqb "," c || Py.contains "," g).
        destruct (Ascii.eqb_spec "," c) as [<-|_]; [done|].
        apply (IH g). by left.
      * apply IH. by right.
Qed.

(** C7, as stated, fails twice: a text with white space at its start, or
    with white space other than one line feed at its end, is not split as it
    is with only its last line feed removed ([strip] removes all the white
    space at both ends); and the empty text, returned for a child that exits
    with 0 and prints nothing, writes no row. *)
Lemma strip_removes_more_than_one_newline :
  collect_one (Some (" 40,10 " +:+ Py.newline)) header_written
  = flush (writerow ["40"; "10"] header_written)
  /\ flush (writerow (spec_row_of (" 40,10 " +:+ Py.newline)) header_written)
     = flush (writerow [" 40"; "10 "] header_written)
  /\ collect_one (Some (" 40,10 " +:+ Py.newline)) header_written
     <> flush (writerow (spec_row_of (" 40,10 " +:+ Py.newline)) header_written)
  /\ run_benchmark 40 10 Ex.bin Ex.silent = ([], Returned (Some ""))
  /\ collect_one (Some "") header_written = header_written.
Proof. repeat split; try reflexivity. intros H. discriminate H. Qed.

(** C7, amended: for a child that exits with 0 in time, [run_benchmark]
    returns its standard output as it is; when that text is not empty the
    loop writes exactly one row and flushes: the row is the text without
    the white space at its two ends (all of it, not one line feed only),
    split at its commas and not changed otherwise. *)
Theorem success_row_is_stripped_and_split (lambda_val tau : Z) (bin : string)
    (duration : Z) (out err : string) (f : csv_file) :
  duration <= 3000 -> out <> "" ->
  run_benchmark lambda_val tau bin (Exits duration 0 out err)
  = ([], Returned (Some out))
  /\ collect_one (Some out) f
     = {| disk := disk f ++ buffer f ++ [Py.split "," (Py.strip out)];
          buffer := [] |}
  /\ (exists pre suf,
        out = pre +:+ Py.strip out +:+ suf
        /\ Py.all_space pre = true /\ Py.all_space suf = true
        /\ Py.starts_with_space (Py.strip out) = false
        /\ Py.ends_with_space (Py.strip out) = false)
  /\ Py.join "," (Py.split "," (Py.strip out)) = Py.strip out
  /\ (forall field, field ∈ Py.split "," (Py.strip out) ->
        Py.contains "," field = false).
Proof.
  intros Hd Ho. split; [by rewrite run_benchmark_success|]. split.
  - destruct out as [|c out]; [done|].
    unfold collect_one, flush, writerow, row_of. done.
  - split; [apply strip_spec|]. split; [apply split_join|].
    intros field. apply split_no_comma.
Qed.

Lemma success_row_is_stripped_and_split_witness :
  1 <= 3000 /\ (" 40,10 " +:+ Py.newline) <> ""
  /\ run_benchmark 40 10 Ex.bin (Exits 1 0 (" 40,10 " +:+ Py.newline) "")
     = ([], Returned (Some (" 40,10 " +:+ Py.newline)))
  /\ collect_one (Some (" 40,10 " +:+ Py.newline)) header_written
     = {| disk := [header; ["40"; "10"]]; buffer := [] |}.
Proof.
  split; [lia|]. split; [discriminate|].
  destruct (success_row_is_stripped_and_split 40 10 Ex.bin 1
              (" 40,10 " +:+ Py.newline) "" header_written)
    as (H1 & H2 & _); [lia|discriminate|].
  split; [exact H1|exact H2].
Defined.

(** When the text is one line that neither starts nor ends with white
    space, followed by one line feed, the row is the one the specification
    describes. *)
Lemma rstrip_line (line : string) :
  Py.ends_with_space line = false -> Py.rstrip (line +:+ Py.newline) = line.
Proof.
  induction line as [|c line IH]; [done|]. intros He.
  rewrite append_String. simpl.
  destruct line as [|d line].
  - simpl in *. by rewrite He.
  - rewrite IH by done. done.
Qed.

Lemma strip_trailing_newline_line (line : string) :
  strip_trailing_newline (line +:+ Py.newline) = line.
Proof.
  induction line as [|c line IH]; [done|].
  rewrite append_String. simpl. rewrite IH.
  by destruct line.
Qed.

Lemma row_of_one_line (line : string) :
  Py.starts_with_space line = false -> Py.ends_with_space line = false ->
  row_of (line +:+ Py.newline) = spec_row_of (line +:+ Py.newline).
Proof.
  intros Hs He. unfold row_of, spec_row_of, Py.strip.
  rewrite strip_trailing_newline_line.
  destruct line as [|c line]; [done|].
  rewrite append_String. simpl Py.lstrip. simpl in Hs. rewrite Hs.
  rewrite <- append_String. by rewrite rstrip_line.
Qed.

(** ** C3: the number of data rows *)

(** C3, as stated, fails: an invocation that exits with 0 and prints
    nothing succeeds, and its empty text writes no row; here the one
    invocation of a complete sweep succeeds and the file has no data row
    for the one tuple. *)
Lemma all_succeed_yet_fewer_rows :
  run Ex.bin 4 [(40, 10, Ex.silent)] [Start 0%nat; Finish 0%nat; Collect]
    (submitted [(40, 10, Ex.silent)])
  = Some (Ex.final 4 [(40, 10, Ex.silent)] [Start 0%nat; Finish 0%nat; Collect])
  /\ complete [(40, 10, Ex.silent)]
       (Ex.final 4 [(40, 10, Ex.silent)] [Start 0%nat; Finish 0%nat; Collect])
  /\ forallb is_success (results Ex.bin [(40, 10, Ex.silent)]) = true
  /\ length (data_rows (file (Ex.final 4 [(40, 10, Ex.silent)]
                                [Start 0%nat; Finish 0%nat; Collect]))) = 0%nat
  /\ length [(40, 10, Ex.silent)] = 1%nat.
Proof. repeat split; reflexivity. Qed.

(** C3, amended: in every state of a sweep the number of data rows is at
    most the number of tuples submitted, and in a complete sweep the two
    are equal exactly when every invocation returned a text that is not
    empty. *)
Theorem data_rows_at_most_tuples (bin : string) (max_workers : Z)
    (tasks : list task) (sched : list action) (s : sweep_state) :
  run bin max_workers tasks sched (submitted tasks) = Some s ->
  (length (data_rows (file s)) <= length tasks)%nat
  /\ (complete tasks s ->
      (length (data_rows (file s)) = length tasks
       <-> forallb writes_row (results bin tasks) = true)).
Proof.
  intros Hr. split.
  - rewrite (reachable_file _ _ _ _ _ Hr). unfold data_rows. simpl.
    pose proof (rows_of_length_le (take (next s) (results bin tasks))) as H.
    rewrite length_take, results_length in H. rewrite drop_0. lia.
  - intros Hc. destruct (complete_data_rows _ _ _ _ _ Hr Hc) as [-> _].
    rewrite <- (results_length bin tasks). apply rows_of_length_eq.
Qed.

Lemma data_rows_at_most_tuples_witness :
  run Ex.bin 2 (Ex.two Ex.sleeps) Ex.second_finishes_first
    (submitted (Ex.two Ex.sleeps))
  = Some (Ex.final 2 (Ex.two Ex.sleeps) Ex.second_finishes_first)
  /\ (length (data_rows (file (Ex.final 2 (Ex.two Ex.sleeps)
                                 Ex.second_finishes_first))) <= 2)%nat
  /\ (length (data_rows (file (Ex.final 2 (Ex.two Ex.sleeps)
                                 Ex.second_finishes_first))) = 2%nat
      <-> forallb writes_row (results Ex.bin (Ex.two Ex.sleeps)) = true).
Proof.
  split; [reflexivity|].
  destruct (data_rows_at_most_tuples Ex.bin 2 (Ex.two Ex.sleeps)
              Ex.second_finishes_first
              (Ex.final 2 (Ex.two Ex.sleeps) Ex.second_finishes_first)
              eq_refl) as [H1 H2].
  split; [exact H1|]. apply H2. split; reflexivity.
Defined.

(** ** C2: the rows follow the order of submission *)

(** C2: whatever the schedule, so whichever invocation completes first,
    the data rows of the file are the rows of the results at the positions
    the loop has passed, in the order of submission, and all are flushed;
    the loop handles the future at [next] only once it is finished, and
    every future before [next] is finished: a row is never written before
    the futures of all earlier positions are resolved.  In a complete sweep
    the data rows are the rows of all results in the order of submission. *)
Theorem rows_follow_submission_order (bin : string) (max_workers : Z)
    (tasks : list task) (sched : list action) (s : sweep_state) :
  run bin max_workers tasks sched (submitted tasks) = Some s ->
  data_rows (file s) = rows_of (take (next s) (results bin tasks))
  /\ buffer (file s) = []
  /\ (forall j, (j < next s)%nat ->
        exists r, futures s !! j = Some (Finished r)
                  /\ results bin tasks !! j = Some r)
  /\ (forall s', step bin max_workers tasks Collect s = Some s' ->
        exists r, futures s !! next s = Some (Finished r)
                  /\ results bin tasks !! next s = Some r)
  /\ (complete tasks s -> data_rows (file s) = rows_of (results bin tasks)).
Proof.
  intros Hr.
  assert (I : invariant bin tasks s).
  { eapply invariant_run; [|done]. apply invariant_submitted. }
  rewrite (inv_file _ _ s I). repeat split.
  - intros j Hj. destruct (inv_handled _ _ s I j Hj) as [v Hv].
    exists (Returned v). split; [done|]. by apply (inv_finished _ _ s I).
  - intros s' Hs. simpl in Hs. destruct (raised s); [done|].
    destruct (futures s !! next s) as [[| |r]|] eqn:En; try done.
    exists r. split; [done|]. by apply (inv_finished _ _ s I).
  - intros [Hn _]. unfold data_rows. simpl. rewrite drop_0, Hn.
    by rewrite <- (results_length bin tasks), firstn_all.
Qed.

Lemma rows_follow_submission_order_witness :
  run Ex.bin 2 (Ex.two (Ex.prints "a,b")) Ex.second_finishes_first
    (submitted (Ex.two (Ex.prints "a,b")))
  = Some (Ex.final 2 (Ex.two (Ex.prints "a,b")) Ex.second_finishes_first)
  /\ data_rows (file (Ex.final 2 (Ex.two (Ex.prints "a,b"))
                        Ex.second_finishes_first))
     = [["a"; "b"]; ["c"; "d"]].
Proof.
  split; [reflexivity|].
  destruct (rows_follow_submission_order Ex.bin 2 (Ex.two (Ex.prints "a,b"))
              Ex.second_finishes_first
              (Ex.final 2 (Ex.two (Ex.prints "a,b")) Ex.second_finishes_first)
              eq_refl) as (_ & _ & _ & _ & H).
  rewrite H; [reflexivity|]. split; reflexivity.
Defined.

(** The loop is blocked while the future it waits for is not finished,
    even when a later one is. *)
Example collect_blocks_on_next :
  exists s,
    run Ex.bin 2 (Ex.two (Ex.prints "a,b"))
      [Start 0%nat; Start 1%nat; Finish 1%nat]
      (submitted (Ex.two (Ex.prints "a,b"))) = Some s
    /\ futures s = [Running; Finished (Returned (Some ("c,d" +:+ Py.newline)))]
    /\ step Ex.bin 2 (Ex.two (Ex.prints "a,b")) Collect s = None.
Proof. eexists. repeat split; reflexivity. Qed.

(** ** C4: the grid *)

(** C4: the list of parameters is the Cartesian product of the two
    dimensions in the order of the nested loops, the position of a tuple
    being the position of its first value times the number of second values
    plus the position of its second value; its length is the product of the
    lengths; and the whole list exists when the tasks are submitted: there
    is one future for each of its tuples, in its order, and none has
    started. *)
Theorem grid_is_ordered_product (lambdas taus : list Z) :
  param_combinations lambdas taus = list_prod lambdas taus
  /\ (forall i j csp tau,
        lambdas !! i = Some csp -> taus !! j = Some tau ->
        param_combinations lambdas taus !! (i * length taus + j)%nat
        = Some (csp, tau))
  /\ length (param_combinations lambdas taus)
     = (length lambdas * length taus)%nat
  /\ (forall env,
        map fst (tasks_of (param_combinations lambdas taus) env)
        = param_combinations lambdas taus
        /\ futures (submitted (tasks_of (param_combinations lambdas taus) env))
           = replicate (length lambdas * length taus) Pending
        /\ next (submitted (tasks_of (param_combinations lambdas taus) env))
           = 0%nat).
Proof.
  rewrite param_combinations_list_prod. split; [done|].
  split; [apply list_prod_lookup|]. split; [apply length_prod|].
  intros env. split; [|split; [|done]].
  - unfold tasks_of. generalize (list_prod lambdas taus) as l. intros l.
    assert (H : forall f : nat -> nat,
      map fst (imap (fun i '(lambda_val, tau) => (lambda_val, tau, env (f i))) l)
      = l).
    { induction l as [|[csp tau] l IH]; intros f; simpl; [done|].
      f_equal. apply (IH (f ∘ S)). }
    apply (H id).
  - simpl. rewrite <- length_prod, <- (tasks_of_length _ env).
    generalize (tasks_of (list_prod lambdas taus) env) as l.
    induction l as [|t l IH]; simpl; [done|]. by rewrite IH.
Qed.

Lemma grid_is_ordered_product_witness :
  param_combinations [1; 2] [10; 20; 30]
  = [(1, 10); (1, 20); (1, 30); (2, 10); (2, 20); (2, 30)]
  /\ length (param_combinations [1; 2] [10; 20; 30]) = 6%nat
  /\ param_combinations [1; 2] [10; 20; 30] !! (1 * 3 + 2)%nat = Some (2, 30).
Proof.
  destruct (grid_is_ordered_product [1; 2] [10; 20; 30]) as (H1 & H2 & H3 & _).
  split; [exact H1|]. split; [exact H3|].
  apply (H2 1%nat 2%nat 2 30); reflexivity.
Defined.

(** ** C5: the parameter space of the source *)

Lemma run_task_fits (bin : string) (lambda_val tau : Z) (p : process_behaviour) :
  str_fits lambda_val && str_fits tau = true ->
  run_task bin (lambda_val, tau, p) = run_benchmark lambda_val tau bin p.
Proof. apply call_fits. Qed.

Lemma main_submitted (a : args) (env : nat -> process_behaviour) :
  0 < threads a -> main a env = submitted [(40, 10, env 0%nat)].
Proof.
  intros Ht. unfold main, main_with.
  by rewrite (proj2 (Z.leb_gt (threads a) 0) Ht).
Qed.

(** C5: the parameter space of the source gives the one tuple (40, 10);
    with a stub that prints [40,10,1.1,2.2,3.3] and exits with 0, the sweep
    can be run to its end, and at the end of every run the results file
    holds the header row and then the one data row of the five fields
    printed. *)
Theorem single_tuple_scenario (a : args) (env : nat -> process_behaviour)
    (duration : Z) (out err : string) :
  0 < threads a -> duration <= 3000 ->
  env 0%nat = Exits duration 0 out err ->
  out = "40,10,1.1,2.2,3.3" \/ out = "40,10,1.1,2.2,3.3" +:+ Py.newline ->
  param_combinations lambdas taus = [(40, 10)]
  /\ (exists sched s,
        run (benchmark_bin a) (threads a) [(40, 10, env 0%nat)] sched (main a env)
        = Some s
        /\ complete [(40, 10, env 0%nat)] s)
  /\ (forall sched s,
        run (benchmark_bin a) (threads a) [(40, 10, env 0%nat)] sched (main a env)
        = Some s ->
        complete [(40, 10, env 0%nat)] s ->
        file s
        = {| disk := [["lambda"; "tau"; "t_open_1_8"; "t_open_1_4"; "t_open_1_2"];
                      ["40"; "10"; "1.1"; "2.2"; "3.3"]];
             buffer := [] |}).
Proof.
  intros Ht Hd He Ho. split; [done|].
  rewrite main_submitted by done.
  assert (Hres : results (benchmark_bin a) [(40, 10, env 0%nat)]
                 = [Returned (Some out)]).
  { unfold results. cbn -[run_task]. rewrite run_task_fits by done.
    rewrite He. by rewrite run_benchmark_success. }
  split.
  - exists [Start 0%nat; Finish 0%nat; Collect].
    cbn -[Z.ltb run_task collect_one].
    change (Z.of_nat 0) with 0.
    rewrite (proj2 (Z.ltb_lt 0 (threads a)) Ht).
    cbn -[Z.ltb run_task collect_one].
    rewrite run_task_fits by done.
    rewrite He, run_benchmark_success by done.
    cbn -[Z.ltb run_task collect_one].
    eexists. split; [done|]. by split.
  - intros sched s Hr Hc. rewrite (complete_file _ _ _ _ _ Hr Hc), Hres.
    by destruct Ho as [-> | ->].
Qed.

Lemma single_tuple_scenario_witness :
  0 < threads Ex.a /\ 1 <= 3000
  /\ param_combinations lambdas taus = [(40, 10)]
  /\ file (Ex.final 4 [(40, 10, Ex.prints "40,10,1.1,2.2,3.3")]
             [Start 0%nat; Finish 0%nat; Collect])
     = {| disk := [["lambda"; "tau"; "t_open_1_8"; "t_open_1_4"; "t_open_1_2"];
                   ["40"; "10"; "1.1"; "2.2"; "3.3"]];
          buffer := [] |}.
Proof.
  split; [reflexivity|]. split; [lia|].
  destruct (single_tuple_scenario Ex.a (fun _ => Ex.prints "40,10,1.1,2.2,3.3")
              1 ("40,10,1.1,2.2,3.3" +:+ Py.newline) "")
    as (H1 & _ & H3); [reflexivity|lia|reflexivity|by right|].
  split; [exact H1|].
  apply (H3 [Start 0%nat; Finish 0%nat; Collect]); [reflexivity|].
  split; reflexivity.
Defined.

(** ** C8: a failure stays with its tuple *)

(** C8, as stated, fails twice.  A failure raised while the command line
    is built, before the [try], is not turned into [None]: for a first
    tuple with a number of 4301 digits the call raises the [ValueError] of
    [str], [future.result()] raises it in [main], no schedule completes the
    sweep, and the second tuple, whose invocation succeeds and prints
    [c,d], never has its row written.  And a sibling that succeeds without
    printing anything leaves no row even in a complete sweep. *)
Lemma failure_outside_try_ends_sweep :
  call_run_benchmark Ex.huge 10 Ex.bin (Ex.prints "a,b")
  = ([], Raised int_str_limit_error)
  /\ is_Exception int_str_limit_error = true
  /\ call_run_benchmark 40 11 Ex.bin (Ex.prints "c,d")
     = ([], Returned (Some ("c,d" +:+ Py.newline)))
  /\ (forall sched s,
        run Ex.bin 2 Ex.first_huge sched (submitted Ex.first_huge) = Some s ->
        data_rows (file s) = [] /\ ~ complete Ex.first_huge s)
  /\ (exists sched s,
        run Ex.bin 2 Ex.first_huge sched (submitted Ex.first_huge) = Some s
        /\ raised s = Some int_str_limit_error)
  /\ complete [(40, 10, Ex.exits_2); (40, 11, Ex.silent)]
       (Ex.final 1 [(40, 10, Ex.exits_2); (40, 11, Ex.silent)] Ex.one_by_one)
  /\ forallb is_success
       (drop 1 (results Ex.bin [(40, 10, Ex.exits_2); (40, 11, Ex.silent)]))
     = true
  /\ data_rows
       (file (Ex.final 1 [(40, 10, Ex.exits_2); (40, 11, Ex.silent)]
                Ex.one_by_one))
     = [].
Proof.
  split; [apply call_not_fits; by rewrite huge_not_fits|]. split; [done|].
  split; [reflexivity|].
  destruct (first_call_raises Ex.bin 2 Ex.first_huge int_str_limit_error)
    as [Hall Hex]; [done|apply first_huge_result|].
  split; [exact Hall|]. split; [exact Hex|].
  split; [split; reflexivity|]. split; reflexivity.
Qed.

(** C8, amended: for tuples whose numbers [str] can print (at most 4300
    digits each), each of the three kinds of failure ends inside
    [run_benchmark], which returns [None]; so, with at least one worker, a
    sweep in which invocations fail in any of these ways never reaches a
    state in which an exception has ended [main], from every state it
    reaches it can be run on until every tuple has been handled, and at
    the end of every run the file holds the row of every invocation that
    returned a text that is not empty. *)
Theorem failures_stay_local (bin : string) (max_workers : Z)
    (tasks : list task) :
  0 < max_workers ->
  Forall (fun t : task => numbers_fit t = true) tasks ->
  Forall (fun t : task => exception_derived (snd t) = true) tasks ->
  (forall lambda_val tau duration rc out err,
     3000 < duration ->
     snd (run_benchmark lambda_val tau bin (Exits duration rc out err))
     = Returned None)
  /\ (forall lambda_val tau duration rc out err,
        duration <= 3000 -> rc <> 0 ->
        snd (run_benchmark lambda_val tau bin (Exits duration rc out err))
        = Returned None)
  /\ (forall lambda_val tau cls msg,
        derives_Exception cls = true ->
        snd (run_benchmark lambda_val tau bin (Fails cls msg)) = Returned None)
  /\ (forall sched s,
        run bin max_workers tasks sched (submitted tasks) = Some s ->
        raised s = None
        /\ (length sched <= 3 * length tasks + 1)%nat
        /\ ((forall a, step bin max_workers tasks a s = None) -> complete tasks s)
        /\ exists sched' s',
             run bin max_workers tasks sched' s = Some s' /\ complete tasks s')
  /\ (forall sched s,
        run bin max_workers tasks sched (submitted tasks) = Some s ->
        complete tasks s ->
        forall i lambda_val tau duration out err,
          tasks !! i = Some (lambda_val, tau, Exits duration 0 out err) ->
          duration <= 3000 -> out <> "" ->
          row_of out ∈ data_rows (file s)).
Proof.
  intros Hw Hfit Hall.
  split; [intros; by rewrite run_benchmark_timeout|].
  split; [intros; by rewrite run_benchmark_nonzero|].
  split; [intros; by rewrite run_benchmark_fails|].
  pose proof (exception_derived_all_return bin tasks Hfit Hall) as Hret.
  split.
  - intros sched s Hr.
    assert (I : invariant bin tasks s).
    { eapply invariant_run; [|done]. apply invariant_submitted. }
    assert (Hnr : raised s = None) by (by eapply invariant_not_raised).
    split; [done|]. split.
    { pose proof (run_length _ _ _ _ _ _ (invariant_submitted bin tasks) Hr) as Hl.
      pose proof (measure_submitted tasks). lia. }
    split.
    { intros Hstuck. split; [|done].
      pose proof (invariant_next_le _ _ s I) as Hle.
      destruct (decide (next s < length tasks)%nat) as [Hn|Hn]; [|lia].
      destruct (progress bin max_workers tasks s Hw I Hnr Hn) as (a & s1 & Hs).
      by rewrite Hstuck in Hs. }
    destruct (can_finish bin max_workers tasks s Hw I) as (sched' & s' & Hr' & Hc).
    exists sched', s'. split; [done|]. destruct Hc as [Hc|Hc]; [done|].
    exfalso. apply Hc. eapply invariant_not_raised; [done|].
    by eapply invariant_run.
  - intros sched s Hr Hc i lambda_val tau duration out err Hi Hd Ho.
    destruct (complete_data_rows _ _ _ _ _ Hr Hc) as [-> _].
    apply (rows_of_elem _ i); [|done].
    rewrite (results_lookup bin tasks i _ _ _ Hi).
    assert (Hf : str_fits lambda_val && str_fits tau = true).
    { rewrite Forall_forall in Hfit.
      apply (Hfit (lambda_val, tau, Exits duration 0 out err)).
      by eapply list_elem_of_lookup_2. }
    rewrite call_fits by done. by rewrite run_benchmark_success.
Qed.

Lemma failures_stay_local_witness :
  0 < 1
  /\ Forall (fun t : task => numbers_fit t = true) (Ex.two Ex.sleeps)
  /\ Forall (fun t : task => exception_derived (snd t) = true)
       (Ex.two Ex.sleeps)
  /\ run Ex.bin 1 (Ex.two Ex.sleeps) Ex.one_by_one (submitted (Ex.two Ex.sleeps))
     = Some (Ex.final 1 (Ex.two Ex.sleeps) Ex.one_by_one)
  /\ complete (Ex.two Ex.sleeps) (Ex.final 1 (Ex.two Ex.sleeps) Ex.one_by_one)
  /\ raised (Ex.final 1 (Ex.two Ex.sleeps) Ex.one_by_one) = None
  /\ row_of ("c,d" +:+ Py.newline)
     ∈ data_rows (file (Ex.final 1 (Ex.two Ex.sleeps) Ex.one_by_one)).
Proof.
  assert (Hf : Forall (fun t : task => numbers_fit t = true) (Ex.two Ex.sleeps)).
  { repeat constructor. }
  assert (H : Forall (fun t : task => exception_derived (snd t) = true)
                (Ex.two Ex.sleeps)).
  { repeat constructor. }
  split; [lia|]. split; [exact Hf|]. split; [exact H|]. split; [reflexivity|].
  split; [split; reflexivity|].
  destruct (failures_stay_local Ex.bin 1 (Ex.two Ex.sleeps) ltac:(lia) Hf H)
    as (_ & _ & _ & H4 & H5).
  split.
  - exact (proj1 (H4 Ex.one_by_one _ eq_refl)).
  - apply (H5 Ex.one_by_one _ eq_refl (conj eq_refl eq_refl) 1%nat 40 11 1
             ("c,d" +:+ Py.newline) ""); [reflexivity|lia|discriminate].
Defined.

(** * Further properties of the code *)

(** ** The grid: membership, repetitions, empty dimensions *)

(** A tuple is in the grid exactly when its first value is a value of
    [lambdas] and its second a value of [taus]. *)
Theorem grid_membership (lambdas taus : list Z) (csp tau : Z) :
  (csp, tau) ∈ param_combinations lambdas taus
  <-> csp ∈ lambdas /\ tau ∈ taus.
Proof.
  rewrite param_combinations_list_prod, !list_elem_of_In.
  apply in_prod_iff.
Qed.

Lemma list_prod_nil_r (lambdas : list Z) :
  list_prod lambdas (@nil Z) = [].
Proof. induction lambdas as [|c l IH]; [done|]. simpl. apply IH. Qed.

Lemma list_prod_NoDup (lambdas taus : list Z) :
  NoDup lambdas -> NoDup taus -> NoDup (list_prod lambdas taus).
Proof.
  intros Hl Ht. induction Hl as [|c l Hc Hl IH]; simpl; [constructor|].
  apply NoDup_app. split; [|split; [|done]].
  - by apply (NoDup_fmap_2 (fun y => (c, y))).
  - intros [a b] Hab Hin. apply list_elem_of_fmap in Hab as (y & [= -> ->] & Hy).
    apply list_elem_of_In, in_prod_iff in Hin as [Hin _].
    apply Hc. by apply list_elem_of_In.
Qed.

Lemma list_prod_NoDup_l (lambdas taus : list Z) (tau : Z) :
  tau ∈ taus -> NoDup (list_prod lambdas taus) -> NoDup lambdas.
Proof.
  intros Ht. induction lambdas as [|c l IH]; simpl; [constructor|].
  intros (_ & Hd & Hl)%NoDup_app. constructor; [|by apply IH].
  intros Hc. apply (Hd (c, tau)).
  - apply (list_elem_of_fmap_2 (fun y => (c, y))). done.
  - apply list_elem_of_In, in_prod_iff. by rewrite <- !list_elem_of_In.
Qed.

Lemma list_prod_NoDup_r (lambdas taus : list Z) (csp : Z) :
  csp ∈ lambdas -> NoDup (list_prod lambdas taus) -> NoDup taus.
Proof.
  destruct lambdas as [|c l]; [by intros ?%elem_of_nil|]. intros _. simpl.
  intros (Hm & _ & _)%NoDup_app. by apply NoDup_fmap_1 in Hm.
Qed.

(** The loops do not remove repetitions: the grid is free of repeated
    tuples exactly when a dimension is empty or neither dimension repeats a
    value. *)
Theorem grid_NoDup (lambdas taus : list Z) :
  NoDup (param_combinations lambdas taus)
  <-> lambdas = [] \/ taus = [] \/ (NoDup lambdas /\ NoDup taus).
Proof.
  rewrite param_combinations_list_prod. split.
  - intros Hd. destruct lambdas as [|c l]; [by left|].
    destruct taus as [|t ts]; [right; by left|]. right. right. split.
    + eapply (list_prod_NoDup_l _ _ t); [by left|done].
    + eapply (list_prod_NoDup_r _ _ c); [by left|done].
  - intros [->|[->|[Hl Ht]]].
    + constructor.
    + rewrite list_prod_nil_r. constructor.
    + by apply list_prod_NoDup.
Qed.

(** A repeated value is submitted again: it gives as many tuples, and so
    as many invocations, as it occurs. *)
Example grid_keeps_repetitions :
  param_combinations [40; 40] [10] = [(40, 10); (40, 10)].
Proof. reflexivity. Qed.

(** When a dimension is empty there is no tuple: nothing can be started,
    and the file stays the header row. *)
Theorem empty_dimension_header_only (lambdas taus : list Z) (a : args)
    (env : nat -> process_behaviour) (sched : list action) (s : sweep_state) :
  lambdas = [] \/ taus = [] ->
  0 < threads a ->
  run (benchmark_bin a) (threads a)
    (tasks_of (param_combinations lambdas taus) env) sched
    (main_with lambdas taus a env) = Some s ->
  param_combinations lambdas taus = []
  /\ sched = []
  /\ complete (tasks_of (param_combinations lambdas taus) env) s
  /\ file s = {| disk := [header]; buffer := [] |}
  /\ console s = [].
Proof.
  intros He Ht. assert (Hp : param_combinations lambdas taus = []).
  { rewrite param_combinations_list_prod.
    destruct He as [-> | ->]; [done|apply list_prod_nil_r]. }
  unfold main_with. rewrite (proj2 (Z.leb_gt (threads a) 0) Ht), Hp.
  intros Hr. split; [done|].
  destruct sched as [|[i|i|] sched]; simpl in Hr.
  - injection Hr as <-. repeat split.
  - by destruct i.
  - by destruct i.
  - done.
Qed.

Lemma empty_dimension_header_only_witness :
  ([40] = [] \/ (@nil Z) = []) /\ 0 < threads Ex.a
  /\ run (benchmark_bin Ex.a) (threads Ex.a)
       (tasks_of (param_combinations [40] []) (fun _ => Ex.silent)) []
       (main_with [40] [] Ex.a (fun _ => Ex.silent))
     = Some (main_with [40] [] Ex.a (fun _ => Ex.silent))
  /\ file (main_with [40] [] Ex.a (fun _ => Ex.silent))
     = {| disk := [header]; buffer := [] |}.
Proof.
  split; [by right|]. split; [reflexivity|]. split; [reflexivity|].
  destruct (empty_dimension_header_only [40] [] Ex.a (fun _ => Ex.silent) []
              (main_with [40] [] Ex.a (fun _ => Ex.silent)))
    as (_ & _ & _ & H & _); [by right|reflexivity|reflexivity|exact H].
Defined.

(** ** The command line *)

Lemma str_int_inj (m n : Z) : Py.str_int m = Py.str_int n -> m = n.
Proof.
  unfold Py.str_int. intros H.
  assert (Hi : forall z, NilZero.int_of_string (NilZero.string_of_int (Z.to_int z))
                         = Some (Z.to_int z)).
  { intros z. apply NilZero.isi; destruct z; simpl; try discriminate;
      intros [= E]; by apply DecimalPos.Unsigned.to_uint_nonnil in E. }
  pose proof (Hi m) as Hm. rewrite H, Hi in Hm. injection Hm as Hm.
  by rewrite <- (DecimalZ.of_to m), <- (DecimalZ.of_to n), Hm.
Qed.

(** The command line has three words, the executable first, and two
    different tuples never give the same command line: the two numbers can
    be read back from it. *)
Theorem cmd_of_distinct (lambda_val tau lambda_val' tau' : Z) (bin : string) :
  (lambda_val, tau) <> (lambda_val', tau') ->
  cmd_of lambda_val tau bin <> cmd_of lambda_val' tau' bin
  /\ length (cmd_of lambda_val tau bin) = 3%nat
  /\ head (cmd_of lambda_val tau bin) = Some bin.
Proof.
  intros Hne. split; [|done]. unfold cmd_of. intros [= H1 H2].
  apply str_int_inj in H1, H2. congruence.
Qed.

Lemma cmd_of_distinct_witness :
  (40, 10) <> (40, 11)
  /\ cmd_of 40 10 Ex.bin <> cmd_of 40 11 Ex.bin
  /\ cmd_of (-3) 0 Ex.bin = ["/abs/my_app"; "-3"; "0"].
Proof.
  split; [discriminate|].
  split; [|reflexivity].
  apply (cmd_of_distinct 40 10 40 11 Ex.bin). discriminate.
Defined.

(** ** The row of a text: columns and surrounding white space *)

Lemma split_length (sep : ascii) (s : string) :
  length (Py.split sep s) = S (Py.count_char sep s).
Proof.
  induction s as [|c s IH]; simpl; [done|].
  destruct (Ascii.eqb c sep); simpl; [by rewrite IH|].
  pose proof (split_not_nil sep s) as Hne.
  destruct (Py.split sep s) as [|f fs]; [done|]. simpl in *. lia.
Qed.

(** The row has one more column than the text, without the white space at
    its ends, has commas; the loop writes it whatever that number is, so the
    row has the five columns of the header exactly when there are four
    commas. *)
Theorem row_columns (text : string) (f : csv_file) :
  text <> "" ->
  length (row_of text) = S (Py.count_char "," (Py.strip text))
  /\ (length (row_of text) = length header
      <-> Py.count_char "," (Py.strip text) = 4%nat)
  /\ disk (collect_one (Some text) f) = disk f ++ buffer f ++ [row_of text].
Proof.
  intros Ht. unfold row_of. rewrite split_length. split; [done|].
  split; [simpl; lia|]. by destruct text.
Qed.

Lemma row_columns_witness :
  "1,2,3" <> ""
  /\ length (row_of "1,2,3") = 3%nat
  /\ disk (collect_one (Some "1,2,3") header_written)
     = [header; ["1"; "2"; "3"]].
Proof.
  split; [discriminate|].
  destruct (row_columns "1,2,3" header_written) as (H1 & _ & H3);
    [discriminate|].
  split; [exact H1|exact H3].
Defined.

Lemma lstrip_all_space (s : string) :
  Py.all_space s = true -> Py.lstrip s = "".
Proof.
  induction s as [|c s IH]; simpl; [done|].
  intros [Hc Hs]%andb_prop. rewrite Hc. by apply IH.
Qed.

Lemma rstrip_all_space (s : string) :
  Py.all_space s = true -> Py.rstrip s = "".
Proof.
  induction s as [|c s IH]; simpl; [done|].
  intros [Hc Hs]%andb_prop. by rewrite IH, Hc.
Qed.

Lemma lstrip_app_space (pre s : string) :
  Py.all_space pre = true -> Py.lstrip (pre +:+ s) = Py.lstrip s.
Proof.
  induction pre as [|c pre IH]; [done|]. simpl Py.all_space.
  intros [Hc Hs]%andb_prop. rewrite append_String. simpl.
  rewrite Hc. by apply IH.
Qed.

Lemma rstrip_app_space (s suf : string) :
  Py.all_space suf = true -> Py.rstrip (s +:+ suf) = Py.rstrip s.
Proof.
  intros Hs. induction s as [|c s IH].
  - rewrite append_Empty. by apply rstrip_all_space.
  - rewrite append_String. simpl. by rewrite IH.
Qed.

Lemma lstrip_app (s suf : string) :
  Py.all_space s = false -> Py.lstrip (s +:+ suf) = Py.lstrip s +:+ suf.
Proof.
  induction s as [|c s IH]; [done|]. simpl Py.all_space.
  rewrite append_String. simpl. destruct (Py.isspace c); simpl; [apply IH|done].
Qed.

(** White space around the output does not change the row: any run of
    blanks, tabs or line ends before and after a text is dropped before
    the text is split. *)
Theorem row_of_ignores_outer_space (pre text suf : string) :
  Py.all_space pre = true -> Py.all_space suf = true ->
  row_of (pre +:+ text +:+ suf) = row_of text.
Proof.
  intros Hp Hs. unfold row_of, Py.strip. f_equal.
  rewrite lstrip_app_space by done.
  destruct (Py.all_space text) eqn:Ht.
  - rewrite (lstrip_all_space text Ht), (lstrip_app_space text suf Ht).
    by rewrite (lstrip_all_space suf Hs).
  - rewrite lstrip_app by done. by apply rstrip_app_space.
Qed.

Lemma row_of_ignores_outer_space_witness :
  Py.all_space "  " = true
  /\ Py.all_space (" " +:+ Py.newline +:+ Py.newline) = true
  /\ row_of ("  " +:+ "1, 2" +:+ (" " +:+ Py.newline +:+ Py.newline))
     = ["1"; " 2"].
Proof.
  split; [reflexivity|]. split; [reflexivity|].
  rewrite (row_of_ignores_outer_space "  " "1, 2"
             (" " +:+ Py.newline +:+ Py.newline));
    reflexivity.
Defined.

(** ** The pool: what every step keeps *)

Section SweepMore.

Variable bin : string.
Variable max_workers : Z.
Variable tasks : list task.

Local Abbreviation step_ := (step bin max_workers tasks).
Local Abbreviation run_ := (run bin max_workers tasks).

(** What every step keeps holds after every schedule. *)
Lemma run_keeps (P : sweep_state -> Prop) :
  (forall a s s', P s -> step_ a s = Some s' -> P s') ->
  forall sched s s', P s -> run_ sched s = Some s' -> P s'.
Proof.
  intros Hstep sched. induction sched as [|a sched IH]; intros s s' Hs Hr;
    simpl in Hr.
  - by injection Hr as <-.
  - destruct (step_ a s) as [s1|] eqn:E1; [|done]. eauto.
Qed.

Lemma forallb_take_lookup (P : future_state -> bool) (fs : list future_state)
    (i a : nat) (f : future_state) :
  forallb P (take i fs) = true -> (a < i)%nat -> fs !! a = Some f -> P f = true.
Proof.
  intros Hall Ha Hf. rewrite forallb_forall in Hall. apply Hall.
  apply list_elem_of_In. apply (list_elem_of_lookup_2 _ a).
  by rewrite lookup_take_lt.
Qed.

End SweepMore.

(** ** The file only grows; an exception ends the collection *)

Section SweepFile.

Variable bin : string.
Variable max_workers : Z.
Variable tasks : list task.

Local Abbreviation step_ := (step bin max_workers tasks).
Local Abbreviation run_ := (run bin max_workers tasks).

Lemma collect_one_prefix (result : option string) (f : csv_file) :
  disk f `prefix_of` disk (collect_one result f).
Proof.
  unfold collect_one. destruct (Py.truthy_opt result); [|done].
  destruct result as [text|]; [|done]. simpl. by apply prefix_app_r.
Qed.

(** The file is append-only: whatever happens next, from any state, the
    rows on disk stay where they are and new rows come after them, and the
    loop never goes back. *)
Theorem file_only_grows (sched : list action) (s s' : sweep_state) :
  run_ sched s = Some s' ->
  disk (file s) `prefix_of` disk (file s') /\ (next s <= next s')%nat.
Proof.
  revert s. induction sched as [|a sched IH]; intros s Hr; simpl in Hr.
  - by injection Hr as <-.
  - destruct (step_ a s) as [s1|] eqn:E1; [|done].
    destruct (IH s1 Hr) as [Hp Hn].
    assert (disk (file s) `prefix_of` disk (file s1) /\ (next s <= next s1)%nat)
      as [Hp1 Hn1].
    { destruct a as [i|i|]; simpl in E1.
      - destruct (futures s !! i) as [[| |r]|]; try done.
        destruct (_ && _); [|done]. by injection E1 as <-.
      - destruct (futures s !! i) as [[| |r]|]; try done.
        destruct (tasks !! i); [|done]. by injection E1 as <-.
      - destruct (raised s); [done|].
        destruct (futures s !! next s) as [[| |[v|e]]|]; try done;
          injection E1 as <-; simpl; [|done].
        split; [apply collect_one_prefix|lia]. }
    split; [by etrans|lia].
Qed.




End SweepFile.

Lemma file_only_grows_witness :
  run Ex.bin 2 (Ex.two (Ex.prints "a,b")) [Finish 1%nat; Finish 0%nat; Collect; Collect]
    (Ex.final 2 (Ex.two (Ex.prints "a,b")) [Start 0%nat; Start 1%nat])
  = Some (Ex.final 2 (Ex.two (Ex.prints "a,b")) Ex.second_finishes_first)
  /\ disk (file (Ex.final 2 (Ex.two (Ex.prints "a,b")) [Start 0%nat; Start 1%nat]))
     `prefix_of`
     disk (file (Ex.final 2 (Ex.two (Ex.prints "a,b")) Ex.second_finishes_first)).
Proof.
  split; [reflexivity|].
  apply (file_only_grows Ex.bin 2 (Ex.two (Ex.prints "a,b"))
           [Finish 1%nat; Finish 0%nat; Collect; Collect]
           (Ex.final 2 (Ex.two (Ex.prints "a,b")) [Start 0%nat; Start 1%nat])
           (Ex.final 2 (Ex.two (Ex.prints "a,b")) Ex.second_finishes_first)).
  reflexivity.
Defined.


(** ** The sweep ends *)

(** With at least one worker the sweep cannot hang and cannot go on for
    ever: a schedule has at most three steps per tuple and one more; as
    long as the loop has futures left and no exception has ended it, some
    step is possible; once the loop has handled every future nothing is
    left to happen; and every state reached can be run on to an end, where
    every future has been handled or [future.result()] has raised. *)
Theorem sweep_ends (bin : string) (max_workers : Z) (tasks : list task)
    (sched : list action) (s : sweep_state) :
  0 < max_workers ->
  run bin max_workers tasks sched (submitted tasks) = Some s ->
  (length sched <= 3 * length tasks + 1)%nat
  /\ ((forall a, step bin max_workers tasks a s = None) ->
      complete tasks s \/ raised s <> None)
  /\ (complete tasks s -> forall a, step bin max_workers tasks a s = None)
  /\ exists sched' s',
       run bin max_workers tasks sched' s = Some s'
       /\ (complete tasks s' \/ raised s' <> None).
Proof.
  intros Hw Hr.
  assert (I : invariant bin tasks s).
  { eapply invariant_run; [|done]. apply invariant_submitted. }
  split.
  { pose proof (run_length _ _ _ _ _ _ (invariant_submitted bin tasks) Hr).
    pose proof (measure_submitted tasks). lia. }
  split; [|split; [|by apply can_finish]].
  2:{ intros [Hn Hnr] a.
      assert (Hfin : forall i f, futures s !! i = Some f -> is_finished f = true).
      { intros i f Hi. apply lookup_lt_Some in Hi as Hlt.
        rewrite (inv_length _ _ s I) in Hlt.
        destruct (inv_handled _ _ s I i) as [v Hv]; [lia|].
        rewrite Hv in Hi. by injection Hi as <-. }
      destruct a as [i|i|]; simpl.
      - destruct (futures s !! i) as [[| |r]|] eqn:Ei; try done.
        by pose proof (Hfin _ _ Ei).
      - destruct (futures s !! i) as [[| |r]|] eqn:Ei; try done.
        by pose proof (Hfin _ _ Ei).
      - rewrite Hnr.
        destruct (futures s !! next s) as [f|] eqn:En; [|done].
        apply lookup_lt_Some in En. rewrite (inv_length _ _ s I) in En. lia. }
  intros Hstuck. destruct (raised s) as [e|] eqn:He; [by right|]. left.
  split; [|done]. pose proof (invariant_next_le _ _ s I).
  destruct (decide (next s < length tasks)%nat) as [Hn|Hn]; [|lia].
  destruct (progress bin max_workers tasks s Hw I He Hn) as (a & s1 & Hs).
  by rewrite Hstuck in Hs.
Qed.

Lemma sweep_ends_witness :
  0 < 1
  /\ run Ex.bin 1 Ex.interrupted [Start 0%nat] (submitted Ex.interrupted)
     = Some (Ex.final 1 Ex.interrupted [Start 0%nat])
  /\ exists sched' s',
       run Ex.bin 1 Ex.interrupted sched' (Ex.final 1 Ex.interrupted [Start 0%nat])
       = Some s'
       /\ (complete Ex.interrupted s' \/ raised s' <> None).
Proof.
  split; [lia|]. split; [reflexivity|].
  destruct (sweep_ends Ex.bin 1 Ex.interrupted [Start 0%nat]
              (Ex.final 1 Ex.interrupted [Start 0%nat]) ltac:(lia) eq_refl)
    as (_ & _ & _ & H).
  exact H.
Defined.

(** ** Every tuple is accounted for *)

Lemma count_results_cons (P : completion (option string) -> bool)
    (r : completion (option string)) (rs : list (completion (option string))) :
  count_results P (r :: rs)
  = ((if P r then 1 else 0) + count_results P rs)%nat.
Proof. unfold count_results. simpl. by destruct (P r). Qed.

Lemma rows_of_count (rs : list (completion (option string))) :
  length (rows_of rs) = count_results writes_row rs.
Proof.
  induction rs as [|r rs IH]; [done|].
  rewrite count_results_cons. simpl. rewrite length_app, IH.
  by destruct r as [[[|c s]|]|e].
Qed.

Lemma returned_accounted (rs : list (completion (option string))) :
  (forall r, r ∈ rs -> exists v, r = Returned v) ->
  length rs
  = (count_results writes_row rs + count_results is_None rs
     + count_results is_empty_text rs)%nat.
Proof.
  induction rs as [|r rs IH]; intros Hall; [done|].
  rewrite !count_results_cons. simpl.
  rewrite IH by (intros r' Hr'; apply Hall; by right).
  destruct (Hall r) as [[[|c t]|] ->]; [by left|simpl; lia..].
Qed.

(** In a complete sweep every tuple is in exactly one of three cases: its
    invocation returned a text that is not empty, and it has its row in the
    file; or it returned [None]; or it returned the empty text.  The rows
    missing from the file are as many as the last two together. *)
Theorem every_tuple_accounted (bin : string) (max_workers : Z)
    (tasks : list task) (sched : list action) (s : sweep_state) :
  run bin max_workers tasks sched (submitted tasks) = Some s ->
  complete tasks s ->
  length (data_rows (file s)) = count_results writes_row (results bin tasks)
  /\ length tasks
     = (length (data_rows (file s))
        + count_results is_None (results bin tasks)
        + count_results is_empty_text (results bin tasks))%nat.
Proof.
  intros Hr Hc.
  assert (I : invariant bin tasks s).
  { eapply invariant_run; [|done]. apply invariant_submitted. }
  destruct (complete_data_rows _ _ _ _ _ Hr Hc) as [-> _].
  rewrite rows_of_count. split; [done|].
  rewrite <- (results_length bin tasks). apply returned_accounted.
  intros r Hin. apply list_elem_of_lookup in Hin as [j Hj].
  apply lookup_lt_Some in Hj as Hlt. rewrite results_length in Hlt.
  destruct Hc as [Hn _].
  destruct (inv_handled _ _ s I j) as [v Hv]; [lia|].
  apply (inv_finished _ _ s I) in Hv. exists v. congruence.
Qed.

Lemma every_tuple_accounted_witness :
  run Ex.bin 2 Ex.three
    [Start 0%nat; Start 1%nat; Finish 1%nat; Finish 0%nat; Collect; Collect;
     Start 2%nat; Finish 2%nat; Collect]
    (submitted Ex.three)
  = Some (Ex.final 1 Ex.three Ex.three_one_by_one)
  /\ complete Ex.three (Ex.final 1 Ex.three Ex.three_one_by_one)
  /\ length (data_rows (file (Ex.final 1 Ex.three Ex.three_one_by_one))) = 1%nat
  /\ count_results is_None (results Ex.bin Ex.three) = 1%nat
  /\ count_results is_empty_text (results Ex.bin Ex.three) = 1%nat.
Proof.
  split; [reflexivity|]. split; [split; reflexivity|].
  destruct (every_tuple_accounted Ex.bin 2 Ex.three
              [Start 0%nat; Start 1%nat; Finish 1%nat; Finish 0%nat; Collect;
               Collect; Start 2%nat; Finish 2%nat; Collect]
              (Ex.final 1 Ex.three Ex.three_one_by_one) eq_refl
              (conj eq_refl eq_refl)) as (H1 & _).
  split; [exact H1|]. split; reflexivity.
Defined.

(** ** One worker: the console follows the grid *)

Section OneWorker.

Variable bin : string.
Variable tasks : list task.

Lemma count_running_pos (fs : list future_state) (k : nat) :
  fs !! k = Some Running -> (0 < count is_running fs)%nat.
Proof.
  revert k. induction fs as [|f fs IH]; intros k Hk; [done|].
  rewrite count_cons. destruct k as [|k]; simpl in Hk.
  - injection Hk as ->. simpl. lia.
  - apply IH in Hk. lia.
Qed.

Lemma printed_take_S (k : nat) (t : task) :
  tasks !! k = Some t ->
  printed bin (take (S k) tasks) = printed bin (take k tasks) ++ fst (run_task bin t).
Proof.
  intros Hk. unfold printed. rewrite (take_S_r _ _ _ Hk), map_app, concat_app.
  simpl. by rewrite app_nil_r.
Qed.

(** With one worker the invocations run one after the other in the order
    of the grid: at every moment the finished futures are the first ones,
    and the console holds what their invocations print, in that order. *)
Theorem one_worker_console_in_order (sched : list action) (s : sweep_state) :
  run bin 1 tasks sched (submitted tasks) = Some s ->
  exists k,
    console s = printed bin (take k tasks)
    /\ (forall j, (j < k)%nat <-> exists r, futures s !! j = Some (Finished r)).
Proof.
  intros Hr.
  cut (exists k,
         console s = printed bin (take k tasks)
         /\ (forall j, (j < k)%nat -> exists r, futures s !! j = Some (Finished r))
         /\ (forall j f, (k <= j)%nat -> futures s !! j = Some f ->
                         is_finished f = false)
         /\ (forall j f, (k < j)%nat -> futures s !! j = Some f -> f = Pending)).
  { intros (k & Hc & Hlt & Hge & _). exists k. split; [done|].
    intros j. split; [apply Hlt|]. intros [r Hj].
    destruct (decide (j < k)%nat) as [|Hn]; [done|].
    by pose proof (Hge j _ ltac:(lia) Hj). }
  revert Hr.
  apply (run_keeps bin 1 tasks
           (fun s => exists k,
              console s = printed bin (take k tasks)
              /\ (forall j, (j < k)%nat ->
                    exists r, futures s !! j = Some (Finished r))
              /\ (forall j f, (k <= j)%nat -> futures s !! j = Some f ->
                              is_finished f = false)
              /\ (forall j f, (k < j)%nat -> futures s !! j = Some f ->
                              f = Pending))).
  - clear. intros a s s' (k & Hc & Hlt & Hge & Hgt) Hstep.
    destruct a as [i|i|]; simpl in Hstep.
    + destruct (futures s !! i) as [[| |r]|] eqn:Ei; try done.
      destruct (forallb _ _) eqn:Hall; [|done]. simpl in Hstep.
      destruct (Z.ltb_spec (Z.of_nat (count is_running (futures s))) 1) as [Hrun|];
        [|done].
      injection Hstep as <-. simpl.
      assert (i = k) as ->.
      { destruct (decide (i < k)%nat) as [Hik|Hik].
        { destruct (Hlt i Hik) as [r Hr]. congruence. }
        destruct (decide (k < i)%nat) as [Hki|Hki]; [|lia].
        assert (Hk : (k < length (futures s))%nat).
        { apply lookup_lt_Some in Ei. lia. }
        apply lookup_lt_is_Some in Hk as [f Hf].
        pose proof (forallb_take_lookup _ _ _ _ _ Hall Hki Hf) as Hnp.
        pose proof (Hge k f ltac:(lia) Hf) as Hnf.
        destruct f; try done.
        apply count_running_pos in Hf. lia. }
      exists k. split; [done|]. split; [|split].
      * intros j Hj. destruct (Hlt j Hj) as [r Hr]. exists r.
        by rewrite list_lookup_insert_ne by lia.
      * intros j f Hj Hf. destruct (decide (k = j)) as [->|Hne].
        -- rewrite list_lookup_insert_eq in Hf by (by eapply lookup_lt_Some).
           by injection Hf as <-.
        -- rewrite list_lookup_insert_ne in Hf by done. by eapply Hge.
      * intros j f Hj Hf. rewrite list_lookup_insert_ne in Hf by lia.
        by eapply Hgt.
    + destruct (futures s !! i) as [[| |r]|] eqn:Ei; try done.
      destruct (tasks !! i) as [t|] eqn:Et; [|done]. injection Hstep as <-.
      simpl.
      assert (i = k) as ->.
      { destruct (decide (i < k)%nat) as [Hik|Hik].
        { destruct (Hlt i Hik) as [r Hr]. congruence. }
        destruct (decide (k < i)%nat) as [Hki|Hki]; [|lia].
        by pose proof (Hgt i _ Hki Ei). }
      exists (S k). split; [by rewrite Hc, (printed_take_S _ _ Et)|].
      split; [|split].
      * intros j Hj. destruct (decide (j = k)) as [->|Hne].
        -- eexists. by rewrite list_lookup_insert_eq by (by eapply lookup_lt_Some).
        -- destruct (Hlt j ltac:(lia)) as [r Hr]. exists r.
           by rewrite list_lookup_insert_ne by done.
      * intros j f Hj Hf. rewrite list_lookup_insert_ne in Hf by lia.
        eapply Hge; [|done]. lia.
      * intros j f Hj Hf. rewrite list_lookup_insert_ne in Hf by lia.
        eapply Hgt; [|done]. lia.
    + destruct (raised s); [done|].
      destruct (futures s !! next s) as [[| |[v|e]]|]; try done;
        injection Hstep as <-; simpl; by exists k.
  - exists 0%nat. simpl. split; [done|]. split; [intros j Hj; lia|].
    split; intros j f _ Hf; rewrite list_lookup_fmap in Hf;
      destruct (tasks !! j); simpl in Hf; try done; by injection Hf as <-.
Qed.

End OneWorker.

Lemma one_worker_console_in_order_witness :
  run Ex.bin 1 Ex.both_fail Ex.one_by_one (submitted Ex.both_fail)
  = Some (Ex.final 1 Ex.both_fail Ex.one_by_one)
  /\ (exists k,
        console (Ex.final 1 Ex.both_fail Ex.one_by_one)
        = printed Ex.bin (take k Ex.both_fail)
        /\ (forall j, (j < k)%nat
              <-> exists r, futures (Ex.final 1 Ex.both_fail Ex.one_by_one) !! j
                            = Some (Finished r)))
  /\ run Ex.bin 1 Ex.both_fail Ex.second_finishes_first (submitted Ex.both_fail)
     = None.
Proof.
  split; [reflexivity|]. split; [|reflexivity].
  apply (one_worker_console_in_order Ex.bin Ex.both_fail Ex.one_by_one).
  reflexivity.
Defined.

(** ** What [run_benchmark] discards *)


